(** * COMITIA VotingContract: a shallow embedding and its properties

    The contract [VotingContract] (Solidity ^0.8.19) is embedded as pure
    transition functions over an explicit storage record.  A call that
    reverts returns [Revert e] and no storage: the EVM discards every write
    of a reverted call, so the storage after it is the storage before it.

    Solidity mappings are total, with the zero value at every key never
    written.  A [mapping (K => bool)] is a finite set of the keys mapped to
    [true]; a mapping to a struct is a finite map read with the zero struct
    as default.  [uint256], [address] and [bytes32] values are binary
    naturals; the only arithmetic of the contract is [++], whose checked
    overflow (a panic since Solidity 0.8) is written out. *)

From Stdlib Require Import NArith Lia.
From stdpp Require Import gmap strings list fin_maps.

Local Open Scope N_scope.

Abbreviation address := N (only parsing).
Abbreviation uint256 := N (only parsing).
Abbreviation bytes32 := N (only parsing).

(** ** Roles, errors and events *)

(** The four role identifiers the contract uses.  [DEFAULT_ADMIN_ROLE] is
    OpenZeppelin's zero role; the other three are the [keccak256] constants
    the contract declares, pairwise distinct and distinct from zero. *)
Inductive Role :=
| DEFAULT_ADMIN_ROLE
| ELECTION_ADMIN_ROLE
| VOTER_ROLE
| AUDITOR_ROLE.

#[global] Instance Role_eq_dec : EqDecision Role.
Proof. solve_decision. Defined.

Definition Role_to_nat (r : Role) : nat :=
  match r with
  | DEFAULT_ADMIN_ROLE => 0%nat
  | ELECTION_ADMIN_ROLE => 1%nat
  | VOTER_ROLE => 2%nat
  | AUDITOR_ROLE => 3%nat
  end.

Definition Role_of_nat (n : nat) : Role :=
  match n with
  | 0%nat => DEFAULT_ADMIN_ROLE
  | 1%nat => ELECTION_ADMIN_ROLE
  | 2%nat => VOTER_ROLE
  | _ => AUDITOR_ROLE
  end.

#[global] Instance Role_countable : Countable Role.
Proof. apply (inj_countable' Role_to_nat Role_of_nat). by intros []. Defined.

(** One constructor per [require] of the contract and of the OpenZeppelin
    modifiers it uses; [revert_reason] gives the message of each. *)
Inductive Error :=
| NotElectionAdmin
| NotRegisteredVoter
| ElectionDoesNotExist
| VotingNotActive
| VotingNotStarted
| VotingHasEnded
| AlreadyVotedForPosition
| VoterAlreadyRegistered
| VoterNotRegistered
| ElectionAlreadyExists
| StartNotBeforeEnd
| EndNotInFuture
| CannotModifyActive
| MaxVotesZero
| SeatsZero
| InvalidCandidateAddress
| ElectionAlreadyActive
| StartTimeNotReached
| NoPositionYet
| ElectionNotActive
| CandidateNotActive
| InvalidVoteHash
| MustBeEndedFirst
| ResultsAlreadyPublished
| VoteNotFoundError
| MissingRole (role : Role)
| PausablePaused
| PausableNotPaused
| ReentrantCall
| RenounceForOther
| ArithmeticOverflow.

#[global] Instance Error_eq_dec : EqDecision Error.
Proof. solve_decision. Defined.

Definition revert_reason (e : Error) : string :=
  match e with
  | NotElectionAdmin => "Caller is not an election admin"
  | NotRegisteredVoter => "Caller is not a registered voter"
  | ElectionDoesNotExist => "Election does not exist"
  | VotingNotActive => "Voting is not active"
  | VotingNotStarted => "Voting has not started"
  | VotingHasEnded => "Voting has ended"
  | AlreadyVotedForPosition => "Already voted for this position"
  | VoterAlreadyRegistered => "Voter already registered"
  | VoterNotRegistered => "Voter not registered"
  | ElectionAlreadyExists => "Election already exists"
  | StartNotBeforeEnd => "Start time must be before end time"
  | EndNotInFuture => "End time must be in the future"
  | CannotModifyActive => "Cannot modify active election"
  | MaxVotesZero => "Max votes must be greater than 0"
  | SeatsZero => "Available seats must be greater than 0"
  | InvalidCandidateAddress => "Invalid candidate address"
  | ElectionAlreadyActive => "Election is already active"
  | StartTimeNotReached => "Election start time not reached"
  | NoPositionYet => "Election must have at least one position"
  | ElectionNotActive => "Election is not active"
  | CandidateNotActive => "Candidate is not active"
  | InvalidVoteHash => "Invalid vote hash"
  | MustBeEndedFirst => "Election must be ended first"
  | ResultsAlreadyPublished => "Results already published"
  | VoteNotFoundError => "Vote not found"
  | MissingRole _ => "AccessControl: account is missing role"
  | PausablePaused => "Pausable: paused"
  | PausableNotPaused => "Pausable: not paused"
  | ReentrantCall => "ReentrancyGuard: reentrant call"
  | RenounceForOther => "AccessControl: can only renounce roles for self"
  | ArithmeticOverflow => "panic: arithmetic overflow (0x11)"
  end.

(** The error names of the specification's taxonomy. *)
Inductive SpecError :=
| Unauthorized
| NotRegistered
| ElectionNotFound
| VoteNotFound
| InvalidCandidate
| AlreadyActive
| NotActive
| ElectionNotEditable
| ElectionStillActive
| AlreadyPublished
| AlreadyVoted
| DuplicateVoteHash
| DuplicateElection
| AlreadyRegistered
| InvalidTimeRange
| TooEarly
| NoPositions
| SystemPaused
| VotingNotOpen.

#[global] Instance SpecError_eq_dec : EqDecision SpecError.
Proof. solve_decision. Defined.

(** Which name of the taxonomy a revert of the contract goes by.  The three
    [require]s of [votingMustBeActive] are the one guard [VotingNotOpen];
    the [require] on [voteHash] is the guard the specification calls
    [DuplicateVoteHash].  Reverts the taxonomy has no name for give [None]. *)
Definition spec_error (e : Error) : option SpecError :=
  match e with
  | NotElectionAdmin | NotRegisteredVoter | MissingRole _ => Some Unauthorized
  | ElectionDoesNotExist => Some ElectionNotFound
  | VotingNotActive | VotingNotStarted | VotingHasEnded => Some VotingNotOpen
  | AlreadyVotedForPosition => Some AlreadyVoted
  | VoterAlreadyRegistered => Some AlreadyRegistered
  | VoterNotRegistered => Some NotRegistered
  | ElectionAlreadyExists => Some DuplicateElection
  | StartNotBeforeEnd | EndNotInFuture => Some InvalidTimeRange
  | CannotModifyActive => Some ElectionNotEditable
  | ElectionAlreadyActive => Some AlreadyActive
  | StartTimeNotReached => Some TooEarly
  | NoPositionYet => Some NoPositions
  | ElectionNotActive => Some NotActive
  | CandidateNotActive => Some InvalidCandidate
  | InvalidVoteHash => Some DuplicateVoteHash
  | MustBeEndedFirst => Some ElectionStillActive
  | ResultsAlreadyPublished => Some AlreadyPublished
  | VoteNotFoundError => Some VoteNotFound
  | PausablePaused => Some SystemPaused
  | MaxVotesZero | SeatsZero | InvalidCandidateAddress | PausableNotPaused
  | ReentrantCall | RenounceForOther | ArithmeticOverflow => None
  end.

(** The events of the contract, and those of the OpenZeppelin bases. *)
Inductive Event :=
| ElectionCreated (eid ttl : string) (by_ : address) (start_ end_ : uint256)
| PositionAdded (eid pid ttl : string) (maxVotes : uint256)
| CandidateRegistered (eid pid cid nm : string) (addr : address)
| VoteCast (eid pid cid : string) (who : address) (hash : bytes32)
    (time : uint256)
| ElectionStarted (eid : string)
| ElectionEnded (eid : string)
| ResultsPublished (eid : string)
| VoterRegistered (who : address)
| VoterRevoked (who : address)
| RoleGranted (role : Role) (account by_ : address)
| RoleRevoked (role : Role) (account by_ : address)
| Paused (by_ : address)
| Unpaused (by_ : address).

(** ** Storage *)

Record Candidate := {
  name : string;
  party : string;
  manifesto : string;
  candidateAddress : address;
  voteCount : uint256;
  candidateIsActive : bool
}.

Record Position := {
  positionTitle : string;
  positionDescription : string;
  maxVotesPerVoter : uint256;
  availableSeats : uint256;
  candidateIds : list string;
  candidates : gmap string Candidate;
  positionHasVoted : gset address;
  positionVoteCount : gmap string uint256
}.

Record Election := {
  title : string;
  description : string;
  startTime : uint256;
  endTime : uint256;
  isActive : bool;
  resultsPublished : bool;
  totalVotes : uint256;
  creator : address;
  positionIds : list string;
  positions : gmap string Position
}.

Record Vote := {
  voteElectionId : string;
  votePositionId : string;
  voteCandidateId : string;
  voter : address;
  timestamp : uint256;
  voteHash : bytes32;
  isVerified : bool
}.

Inductive ReentrancyStatus := NOT_ENTERED | ENTERED.

#[global] Instance ReentrancyStatus_eq_dec : EqDecision ReentrancyStatus.
Proof. solve_decision. Defined.

(** The storage of the contract.  [events] is the log of emitted events,
    newest first. *)
Record State := {
  elections : gmap string Election;
  hasVoted : gset (address * string * string);
  votes : gmap bytes32 Vote;
  registeredVoters : gset address;
  electionExists : gset string;
  electionIds : list string;
  voteHashes : list bytes32;
  roles : gset (Role * address);
  paused : bool;
  status : ReentrancyStatus;
  events : list Event
}.

(** The zero value of each struct: what an unwritten mapping slot reads. *)
Definition zeroCandidate : Candidate :=
  {| name := ""; party := ""; manifesto := ""; candidateAddress := 0;
     voteCount := 0; candidateIsActive := false |}.

Definition zeroPosition : Position :=
  {| positionTitle := ""; positionDescription := ""; maxVotesPerVoter := 0;
     availableSeats := 0; candidateIds := []; candidates := ∅;
     positionHasVoted := ∅; positionVoteCount := ∅ |}.

Definition zeroElection : Election :=
  {| title := ""; description := ""; startTime := 0; endTime := 0;
     isActive := false; resultsPublished := false; totalVotes := 0;
     creator := 0; positionIds := []; positions := ∅ |}.

Definition zeroVote : Vote :=
  {| voteElectionId := ""; votePositionId := ""; voteCandidateId := "";
     voter := 0; timestamp := 0; voteHash := 0; isVerified := false |}.

(** Reading a mapping slot. *)
Definition electionAt (s : State) (electionId : string) : Election :=
  default zeroElection (elections s !! electionId).

Definition positionAt (e : Election) (positionId : string) : Position :=
  default zeroPosition (positions e !! positionId).

Definition candidateAt (p : Position) (candidateId : string) : Candidate :=
  default zeroCandidate (candidates p !! candidateId).

Definition voteAt (s : State) (h : bytes32) : Vote :=
  default zeroVote (votes s !! h).

Definition tallyAt (p : Position) (candidateId : string) : uint256 :=
  default 0 (positionVoteCount p !! candidateId).

(** Field updates. *)
Definition set_elections (m : gmap string Election) (s : State) : State :=
  {| elections := m; hasVoted := hasVoted s; votes := votes s;
     registeredVoters := registeredVoters s;
     electionExists := electionExists s; electionIds := electionIds s;
     voteHashes := voteHashes s; roles := roles s; paused := paused s;
     status := status s; events := events s |}.

Definition set_hasVoted (x : gset (address * string * string)) (s : State)
  : State :=
  {| elections := elections s; hasVoted := x; votes := votes s;
     registeredVoters := registeredVoters s;
     electionExists := electionExists s; electionIds := electionIds s;
     voteHashes := voteHashes s; roles := roles s; paused := paused s;
     status := status s; events := events s |}.

Definition set_votes (m : gmap bytes32 Vote) (s : State) : State :=
  {| elections := elections s; hasVoted := hasVoted s; votes := m;
     registeredVoters := registeredVoters s;
     electionExists := electionExists s; electionIds := electionIds s;
     voteHashes := voteHashes s; roles := roles s; paused := paused s;
     status := status s; events := events s |}.

Definition set_registeredVoters (x : gset address) (s : State) : State :=
  {| elections := elections s; hasVoted := hasVoted s; votes := votes s;
     registeredVoters := x;
     electionExists := electionExists s; electionIds := electionIds s;
     voteHashes := voteHashes s; roles := roles s; paused := paused s;
     status := status s; events := events s |}.

Definition set_electionExists (x : gset string) (s : State) : State :=
  {| elections := elections s; hasVoted := hasVoted s; votes := votes s;
     registeredVoters := registeredVoters s;
     electionExists := x; electionIds := electionIds s;
     voteHashes := voteHashes s; roles := roles s; paused := paused s;
     status := status s; events := events s |}.

Definition set_electionIds (l : list string) (s : State) : State :=
  {| elections := elections s; hasVoted := hasVoted s; votes := votes s;
     registeredVoters := registeredVoters s;
     electionExists := electionExists s; electionIds := l;
     voteHashes := voteHashes s; roles := roles s; paused := paused s;
     status := status s; events := events s |}.

Definition set_voteHashes (l : list bytes32) (s : State) : State :=
  {| elections := elections s; hasVoted := hasVoted s; votes := votes s;
     registeredVoters := registeredVoters s;
     electionExists := electionExists s; electionIds := electionIds s;
     voteHashes := l; roles := roles s; paused := paused s;
     status := status s; events := events s |}.

Definition set_roles (x : gset (Role * address)) (s : State) : State :=
  {| elections := elections s; hasVoted := hasVoted s; votes := votes s;
     registeredVoters := registeredVoters s;
     electionExists := electionExists s; electionIds := electionIds s;
     voteHashes := voteHashes s; roles := x; paused := paused s;
     status := status s; events := events s |}.

Definition set_paused (b : bool) (s : State) : State :=
  {| elections := elections s; hasVoted := hasVoted s; votes := votes s;
     registeredVoters := registeredVoters s;
     electionExists := electionExists s; electionIds := electionIds s;
     voteHashes := voteHashes s; roles := roles s; paused := b;
     status := status s; events := events s |}.

Definition set_status (st : ReentrancyStatus) (s : State) : State :=
  {| elections := elections s; hasVoted := hasVoted s; votes := votes s;
     registeredVoters := registeredVoters s;
     electionExists := electionExists s; electionIds := electionIds s;
     voteHashes := voteHashes s; roles := roles s; paused := paused s;
     status := st; events := events s |}.

Definition emit (ev : Event) (s : State) : State :=
  {| elections := elections s; hasVoted := hasVoted s; votes := votes s;
     registeredVoters := registeredVoters s;
     electionExists := electionExists s; electionIds := electionIds s;
     voteHashes := voteHashes s; roles := roles s; paused := paused s;
     status := status s; events := ev :: events s |}.

Definition set_isActive (b : bool) (e : Election) : Election :=
  {| title := title e; description := description e;
     startTime := startTime e; endTime := endTime e; isActive := b;
     resultsPublished := resultsPublished e; totalVotes := totalVotes e;
     creator := creator e; positionIds := positionIds e;
     positions := positions e |}.

Definition set_resultsPublished (b : bool) (e : Election) : Election :=
  {| title := title e; description := description e;
     startTime := startTime e; endTime := endTime e; isActive := isActive e;
     resultsPublished := b; totalVotes := totalVotes e;
     creator := creator e; positionIds := positionIds e;
     positions := positions e |}.

Definition set_totalVotes (n : uint256) (e : Election) : Election :=
  {| title := title e; description := description e;
     startTime := startTime e; endTime := endTime e; isActive := isActive e;
     resultsPublished := resultsPublished e; totalVotes := n;
     creator := creator e; positionIds := positionIds e;
     positions := positions e |}.

(** [election.positionIds.push(positionId)] *)
Definition push_positionId (positionId : string) (e : Election) : Election :=
  {| title := title e; description := description e;
     startTime := startTime e; endTime := endTime e; isActive := isActive e;
     resultsPublished := resultsPublished e; totalVotes := totalVotes e;
     creator := creator e; positionIds := positionIds e ++ [positionId];
     positions := positions e |}.

(** A write through the storage pointer [election.positions[positionId]]. *)
Definition store_position (positionId : string) (p : Position) (e : Election)
  : Election :=
  {| title := title e; description := description e;
     startTime := startTime e; endTime := endTime e; isActive := isActive e;
     resultsPublished := resultsPublished e; totalVotes := totalVotes e;
     creator := creator e; positionIds := positionIds e;
     positions := <[positionId := p]> (positions e) |}.

(** [position.candidateIds.push(candidateId)] *)
Definition push_candidateId (candidateId : string) (p : Position) : Position :=
  {| positionTitle := positionTitle p;
     positionDescription := positionDescription p;
     maxVotesPerVoter := maxVotesPerVoter p;
     availableSeats := availableSeats p;
     candidateIds := candidateIds p ++ [candidateId];
     candidates := candidates p;
     positionHasVoted := positionHasVoted p;
     positionVoteCount := positionVoteCount p |}.

(** A write through the storage pointer [position.candidates[candidateId]]. *)
Definition store_candidate (candidateId : string) (c : Candidate)
  (p : Position) : Position :=
  {| positionTitle := positionTitle p;
     positionDescription := positionDescription p;
     maxVotesPerVoter := maxVotesPerVoter p;
     availableSeats := availableSeats p;
     candidateIds := candidateIds p;
     candidates := <[candidateId := c]> (candidates p);
     positionHasVoted := positionHasVoted p;
     positionVoteCount := positionVoteCount p |}.

(** [position.hasVoted[who] = true] *)
Definition mark_voted (who : address) (p : Position) : Position :=
  {| positionTitle := positionTitle p;
     positionDescription := positionDescription p;
     maxVotesPerVoter := maxVotesPerVoter p;
     availableSeats := availableSeats p;
     candidateIds := candidateIds p;
     candidates := candidates p;
     positionHasVoted := {[ who ]} ∪ positionHasVoted p;
     positionVoteCount := positionVoteCount p |}.

(** [position.voteCount[candidateId] = n] *)
Definition set_tally (candidateId : string) (n : uint256) (p : Position)
  : Position :=
  {| positionTitle := positionTitle p;
     positionDescription := positionDescription p;
     maxVotesPerVoter := maxVotesPerVoter p;
     availableSeats := availableSeats p;
     candidateIds := candidateIds p;
     candidates := candidates p;
     positionHasVoted := positionHasVoted p;
     positionVoteCount := <[candidateId := n]> (positionVoteCount p) |}.

Definition set_voteCount (n : uint256) (c : Candidate) : Candidate :=
  {| name := name c; party := party c; manifesto := manifesto c;
     candidateAddress := candidateAddress c; voteCount := n;
     candidateIsActive := candidateIsActive c |}.

(** The four fields [addPosition] writes. *)
Definition set_positionConfig (ttl descr : string) (maxVotes seats : uint256)
  (p : Position) : Position :=
  {| positionTitle := ttl; positionDescription := descr;
     maxVotesPerVoter := maxVotes; availableSeats := seats;
     candidateIds := candidateIds p; candidates := candidates p;
     positionHasVoted := positionHasVoted p;
     positionVoteCount := positionVoteCount p |}.

(** A write through the storage pointer [elections[electionId]]. *)
Definition store_election (electionId : string) (e : Election) (s : State)
  : State :=
  set_elections (<[electionId := e]> (elections s)) s.

(** ** Calls that return or revert *)

Inductive Result (A : Type) :=
| Ok (a : A)
| Revert (e : Error).

Arguments Ok {A} a.
Arguments Revert {A} e.

Definition bind {A B : Type} (r : Result A) (k : A → Result B) : Result B :=
  match r with
  | Ok a => k a
  | Revert e => Revert e
  end.

Notation "'do' x <- c ; k" := (bind c (fun x => k))
  (at level 10, x name, c at level 100, k at level 200,
   format "'[v' 'do'  x  <-  c ; '/' k ']'").
Notation "'check' c ; k" := (bind c (fun _ : unit => k))
  (at level 10, c at level 100, k at level 200,
   format "'[v' 'check'  c ; '/' k ']'").

Definition require (b : bool) (e : Error) : Result unit :=
  if b then Ok tt else Revert e.

(** [x++] on a [uint256]: a panic when the result does not fit. *)
Definition MAX_UINT256 : N := 2 ^ 256 - 1.

Definition increment (x : uint256) : Result uint256 :=
  if x <? MAX_UINT256 then Ok (x + 1) else Revert ArithmeticOverflow.

(** What a transaction gives the contract: [msg.sender] and
    [block.timestamp]. *)
Record Tx := {
  msg_sender : address;
  block_timestamp : uint256
}.

(** ** The OpenZeppelin bases

    [AccessControl], [Pausable] and [ReentrancyGuard] are imported from the
    OpenZeppelin package (4.x, by the import paths) and are not part of the
    repository.  Their storage is the [roles], [paused] and [status] fields;
    the functions below follow the package. *)

Definition hasRole (role : Role) (account : address) (s : State) : bool :=
  bool_decide ((role, account) ∈ roles s).

Definition _grantRole (role : Role) (account : address) (tx : Tx) (s : State)
  : State :=
  if hasRole role account s then s
  else emit (RoleGranted role account (msg_sender tx))
         (set_roles ({[ (role, account) ]} ∪ roles s) s).

Definition _revokeRole (role : Role) (account : address) (tx : Tx) (s : State)
  : State :=
  if hasRole role account s
  then emit (RoleRevoked role account (msg_sender tx))
         (set_roles (roles s ∖ {[ (role, account) ]}) s)
  else s.

Definition onlyRole (role : Role) (tx : Tx) (s : State) : Result unit :=
  require (hasRole role (msg_sender tx) s) (MissingRole role).

(** The contract never calls [_setRoleAdmin]: every role is administered by
    [DEFAULT_ADMIN_ROLE]. *)
Definition getRoleAdmin (role : Role) : Role := DEFAULT_ADMIN_ROLE.

Definition grantRole (role : Role) (account : address) (tx : Tx) (s : State)
  : Result State :=
  check onlyRole (getRoleAdmin role) tx s;
  Ok (_grantRole role account tx s).

Definition revokeRole (role : Role) (account : address) (tx : Tx) (s : State)
  : Result State :=
  check onlyRole (getRoleAdmin role) tx s;
  Ok (_revokeRole role account tx s).

Definition renounceRole (role : Role) (account : address) (tx : Tx)
  (s : State) : Result State :=
  check require (account =? msg_sender tx) RenounceForOther;
  Ok (_revokeRole role account tx s).

Definition whenNotPaused (s : State) : Result unit :=
  require (negb (paused s)) PausablePaused.

Definition whenPaused (s : State) : Result unit :=
  require (paused s) PausableNotPaused.

Definition _pause (tx : Tx) (s : State) : Result State :=
  check whenNotPaused s;
  Ok (emit (Paused (msg_sender tx)) (set_paused true s)).

Definition _unpause (tx : Tx) (s : State) : Result State :=
  check whenPaused s;
  Ok (emit (Unpaused (msg_sender tx)) (set_paused false s)).

Definition _nonReentrantBefore (s : State) : Result State :=
  check require (negb (bool_decide (status s = ENTERED))) ReentrantCall;
  Ok (set_status ENTERED s).

Definition _nonReentrantAfter (s : State) : State :=
  set_status NOT_ENTERED s.

(** ** Modifiers of the contract *)

Definition onlyElectionAdmin (tx : Tx) (s : State) : Result unit :=
  require (hasRole ELECTION_ADMIN_ROLE (msg_sender tx) s) NotElectionAdmin.

Definition onlyRegisteredVoter (tx : Tx) (s : State) : Result unit :=
  require (bool_decide (msg_sender tx ∈ registeredVoters s))
    NotRegisteredVoter.

Definition electionMustExist (electionId : string) (s : State)
  : Result unit :=
  require (bool_decide (electionId ∈ electionExists s)) ElectionDoesNotExist.

Definition votingMustBeActive (electionId : string) (tx : Tx) (s : State)
  : Result unit :=
  check require (isActive (electionAt s electionId)) VotingNotActive;
  check require (startTime (electionAt s electionId) <=? block_timestamp tx)
    VotingNotStarted;
  require (block_timestamp tx <=? endTime (electionAt s electionId))
    VotingHasEnded.

Definition hasNotVoted (electionId positionId : string) (tx : Tx) (s : State)
  : Result unit :=
  require
    (negb (bool_decide ((msg_sender tx, electionId, positionId) ∈ hasVoted s)))
    AlreadyVotedForPosition.

(** ** Deployment *)

Definition emptyStorage : State :=
  {| elections := ∅; hasVoted := ∅; votes := ∅; registeredVoters := ∅;
     electionExists := ∅; electionIds := []; voteHashes := []; roles := ∅;
     paused := false; status := NOT_ENTERED; events := [] |}.

Definition constructor (tx : Tx) : State :=
  _grantRole ELECTION_ADMIN_ROLE (msg_sender tx) tx
    (_grantRole DEFAULT_ADMIN_ROLE (msg_sender tx) tx emptyStorage).

(** ** AccessControl of voters *)

Definition registerVoter (voter : address) (tx : Tx) (s : State)
  : Result State :=
  check onlyElectionAdmin tx s;
  check require (negb (bool_decide (voter ∈ registeredVoters s)))
    VoterAlreadyRegistered;
  let s1 := set_registeredVoters ({[ voter ]} ∪ registeredVoters s) s in
  let s2 := _grantRole VOTER_ROLE voter tx s1 in
  Ok (emit (VoterRegistered voter) s2).

Definition revokeVoter (voter : address) (tx : Tx) (s : State)
  : Result State :=
  check onlyElectionAdmin tx s;
  check require (bool_decide (voter ∈ registeredVoters s)) VoterNotRegistered;
  let s1 := set_registeredVoters (registeredVoters s ∖ {[ voter ]}) s in
  let s2 := _revokeRole VOTER_ROLE voter tx s1 in
  Ok (emit (VoterRevoked voter) s2).

(** ** ElectionRegistry *)

(** [createElection] writes eight fields of the slot [elections[electionId]]
    and leaves [positionIds] and [positions] as the slot has them. *)
Definition createElection (electionId title description : string)
  (startTime endTime : uint256) (tx : Tx) (s : State) : Result State :=
  check onlyElectionAdmin tx s;
  check require (negb (bool_decide (electionId ∈ electionExists s)))
    ElectionAlreadyExists;
  check require (startTime <? endTime) StartNotBeforeEnd;
  check require (block_timestamp tx <? endTime) EndNotInFuture;
  let slot := electionAt s electionId in
  let newElection :=
    {| title := title; description := description; startTime := startTime;
       endTime := endTime; isActive := false; resultsPublished := false;
       totalVotes := 0; creator := msg_sender tx;
       positionIds := positionIds slot; positions := positions slot |} in
  let s1 := store_election electionId newElection s in
  let s2 := set_electionExists ({[ electionId ]} ∪ electionExists s1) s1 in
  let s3 := set_electionIds (electionIds s2 ++ [electionId]) s2 in
  Ok (emit (ElectionCreated electionId title (msg_sender tx) startTime endTime)
        s3).

Definition addPosition (electionId positionId title description : string)
  (maxVotesPerVoter availableSeats : uint256) (tx : Tx) (s : State)
  : Result State :=
  check onlyElectionAdmin tx s;
  check electionMustExist electionId s;
  check require (negb (isActive (electionAt s electionId))) CannotModifyActive;
  check require (0 <? maxVotesPerVoter) MaxVotesZero;
  check require (0 <? availableSeats) SeatsZero;
  let election := electionAt s electionId in
  let position := positionAt election positionId in
  let position' :=
    set_positionConfig title description maxVotesPerVoter availableSeats
      position in
  let election' :=
    push_positionId positionId (store_position positionId position' election)
  in
  Ok (emit (PositionAdded electionId positionId title maxVotesPerVoter)
        (store_election electionId election' s)).

Definition registerCandidate
  (electionId positionId candidateId name party manifesto : string)
  (candidateAddress : address) (tx : Tx) (s : State) : Result State :=
  check onlyElectionAdmin tx s;
  check electionMustExist electionId s;
  check require (negb (isActive (electionAt s electionId))) CannotModifyActive;
  check require (negb (candidateAddress =? 0)) InvalidCandidateAddress;
  let election := electionAt s electionId in
  let position := positionAt election positionId in
  let candidate :=
    {| name := name; party := party; manifesto := manifesto;
       candidateAddress := candidateAddress; voteCount := 0;
       candidateIsActive := true |} in
  let position' :=
    push_candidateId candidateId (store_candidate candidateId candidate position)
  in
  let election' := store_position positionId position' election in
  Ok (emit
        (CandidateRegistered electionId positionId candidateId name
           candidateAddress)
        (store_election electionId election' s)).

Definition startElection (electionId : string) (tx : Tx) (s : State)
  : Result State :=
  check onlyElectionAdmin tx s;
  check electionMustExist electionId s;
  let election := electionAt s electionId in
  check require (negb (isActive election)) ElectionAlreadyActive;
  check require (startTime election <=? block_timestamp tx)
    StartTimeNotReached;
  check require (0 <? N.of_nat (length (positionIds election))) NoPositionYet;
  Ok (emit (ElectionStarted electionId)
        (store_election electionId (set_isActive true election) s)).

Definition endElection (electionId : string) (tx : Tx) (s : State)
  : Result State :=
  check onlyElectionAdmin tx s;
  check electionMustExist electionId s;
  let election := electionAt s electionId in
  check require (isActive election) ElectionNotActive;
  Ok (emit (ElectionEnded electionId)
        (store_election electionId (set_isActive false election) s)).

Definition publishResults (electionId : string) (tx : Tx) (s : State)
  : Result State :=
  check onlyElectionAdmin tx s;
  check electionMustExist electionId s;
  let election := electionAt s electionId in
  check require (negb (isActive election)) MustBeEndedFirst;
  check require (negb (resultsPublished election)) ResultsAlreadyPublished;
  Ok (emit (ResultsPublished electionId)
        (store_election electionId (set_resultsPublished true election) s)).

(** ** VoteLedger *)

(** The modifiers run in the order the function lists them:
    [onlyRegisteredVoter], [nonReentrant], [whenNotPaused],
    [electionMustExist], [votingMustBeActive], [hasNotVoted]; then the body,
    then the closing half of [nonReentrant]. *)
Definition castVote (electionId positionId candidateId : string)
  (voteHash : bytes32) (tx : Tx) (s : State) : Result State :=
  check onlyRegisteredVoter tx s;
  do s <- _nonReentrantBefore s;
  check whenNotPaused s;
  check electionMustExist electionId s;
  check votingMustBeActive electionId tx s;
  check hasNotVoted electionId positionId tx s;
  let election := electionAt s electionId in
  let position := positionAt election positionId in
  let candidate := candidateAt position candidateId in
  check require (candidateIsActive candidate) CandidateNotActive;
  check require (negb (voteHash =? 0)) InvalidVoteHash;
  let vote :=
    {| voteElectionId := electionId; votePositionId := positionId;
       voteCandidateId := candidateId; voter := msg_sender tx;
       timestamp := block_timestamp tx; voteHash := voteHash;
       isVerified := true |} in
  let s := set_votes (<[voteHash := vote]> (votes s)) s in
  let s :=
    set_hasVoted ({[ (msg_sender tx, electionId, positionId) ]} ∪ hasVoted s) s
  in
  let position := mark_voted (msg_sender tx) position in
  do tally <- increment (tallyAt position candidateId);
  let position := set_tally candidateId tally position in
  do count <- increment (voteCount candidate);
  let position :=
    store_candidate candidateId (set_voteCount count candidate) position in
  do total <- increment (totalVotes election);
  let election :=
    set_totalVotes total (store_position positionId position election) in
  let s := store_election electionId election s in
  let s := set_voteHashes (voteHashes s ++ [voteHash]) s in
  let s :=
    emit
      (VoteCast electionId positionId candidateId (msg_sender tx) voteHash
         (block_timestamp tx)) s in
  Ok (_nonReentrantAfter s).

(** ** QueryService: the [view] functions.  They read the storage and
    return a value; having no storage in their result, they write nothing. *)

Definition verifyVote (voteHash : bytes32) (s : State)
  : Result (string * string * string * address * uint256 * bool) :=
  let vote := voteAt s voteHash in
  check require (negb (voter vote =? 0)) VoteNotFoundError;
  Ok (voteElectionId vote, votePositionId vote, voteCandidateId vote,
      voter vote, timestamp vote, isVerified vote).

Definition getElection (electionId : string) (s : State)
  : Result (string * string * uint256 * uint256 * bool * bool * uint256
            * address) :=
  check electionMustExist electionId s;
  let election := electionAt s electionId in
  Ok (title election, description election, startTime election,
      endTime election, isActive election, resultsPublished election,
      totalVotes election, creator election).

Definition getCandidateVoteCount (electionId positionId candidateId : string)
  (s : State) : Result uint256 :=
  check electionMustExist electionId s;
  Ok (voteCount
        (candidateAt (positionAt (electionAt s electionId) positionId)
           candidateId)).

Definition getElectionCount (s : State) : uint256 :=
  N.of_nat (length (electionIds s)).

Definition getTotalVotesCast (s : State) : uint256 :=
  N.of_nat (length (voteHashes s)).

Definition hasVoterVoted (who : address) (electionId positionId : string)
  (s : State) : bool :=
  bool_decide ((who, electionId, positionId) ∈ hasVoted s).

Definition getVersion : string := "1.0.0".

(** ** PauseSwitch *)

Definition pause (tx : Tx) (s : State) : Result State :=
  check onlyRole DEFAULT_ADMIN_ROLE tx s;
  _pause tx s.

Definition unpause (tx : Tx) (s : State) : Result State :=
  check onlyRole DEFAULT_ADMIN_ROLE tx s;
  _unpause tx s.

(** ** Transactions and reachable storage *)

(** The state-changing external functions. *)
Inductive Call :=
| RegisterVoter (who : address)
| RevokeVoter (who : address)
| CreateElection (eid ttl descr : string) (start_ end_ : uint256)
| AddPosition (eid pid ttl descr : string) (maxVotes seats : uint256)
| RegisterCandidate (eid pid cid nm pty mfs : string) (addr : address)
| StartElection (eid : string)
| EndElection (eid : string)
| CastVote (eid pid cid : string) (hash : bytes32)
| PublishResults (eid : string)
| Pause
| Unpause
| GrantRole (role : Role) (account : address)
| RevokeRole (role : Role) (account : address)
| RenounceRole (role : Role) (account : address).

Definition exec (c : Call) (tx : Tx) (s : State) : Result State :=
  match c with
  | RegisterVoter who => registerVoter who tx s
  | RevokeVoter who => revokeVoter who tx s
  | CreateElection eid ttl descr start_ end_ =>
      createElection eid ttl descr start_ end_ tx s
  | AddPosition eid pid ttl descr maxVotes seats =>
      addPosition eid pid ttl descr maxVotes seats tx s
  | RegisterCandidate eid pid cid nm pty mfs addr =>
      registerCandidate eid pid cid nm pty mfs addr tx s
  | StartElection eid => startElection eid tx s
  | EndElection eid => endElection eid tx s
  | CastVote eid pid cid hash => castVote eid pid cid hash tx s
  | PublishResults eid => publishResults eid tx s
  | Pause => pause tx s
  | Unpause => unpause tx s
  | GrantRole role account => grantRole role account tx s
  | RevokeRole role account => revokeRole role account tx s
  | RenounceRole role account => renounceRole role account tx s
  end.

(** The storage a transaction leaves: that of the call when it returns, the
    one before it when it reverts. *)
Definition transact (c : Call) (tx : Tx) (s : State) : State :=
  match exec c tx s with
  | Ok s' => s'
  | Revert _ => s
  end.

Definition transactAll (txs : list (Call * Tx)) (s : State) : State :=
  foldl (fun st ct => transact ct.1 ct.2 st) s txs.

(** The storage after deployment and any sequence of transactions. *)
Inductive reachable : State → Prop :=
| reachable_deploy (tx : Tx) : reachable (constructor tx)
| reachable_transact (c : Call) (tx : Tx) (s : State) :
    reachable s → reachable (transact c tx s).

Definition mapResult (f : State → State) (r : Result State) : Result State :=
  match r with
  | Ok s => Ok (f s)
  | Revert e => Revert e
  end.

(** The administrative functions of the ElectionRegistry and of voter
    registration. *)
Definition isAdministrative (c : Call) : bool :=
  match c with
  | RegisterVoter _ | RevokeVoter _ | CreateElection _ _ _ _ _
  | AddPosition _ _ _ _ _ _ | RegisterCandidate _ _ _ _ _ _ _
  | StartElection _ | EndElection _ | PublishResults _ => true
  | CastVote _ _ _ _ | Pause | Unpause | GrantRole _ _ | RevokeRole _ _
  | RenounceRole _ _ => false
  end.

(** ** The guards of [castVote], in the order the code runs them *)

Inductive Guard :=
| CallerRegistered
| NotReentered
| NotPaused
| ElectionExists
| VotingOpen
| NotYetVoted
| CandidateActive
| HashNonZero.

Definition castVoteGuards : list Guard :=
  [CallerRegistered; NotReentered; NotPaused; ElectionExists; VotingOpen;
   NotYetVoted; CandidateActive; HashNonZero].

(** The condition each guard requires. *)
Definition guardHolds (g : Guard) (electionId positionId candidateId : string)
  (voteHash : bytes32) (tx : Tx) (s : State) : bool :=
  match g with
  | CallerRegistered => bool_decide (msg_sender tx ∈ registeredVoters s)
  | NotReentered => negb (bool_decide (status s = ENTERED))
  | NotPaused => negb (paused s)
  | ElectionExists => bool_decide (electionId ∈ electionExists s)
  | VotingOpen =>
      isActive (electionAt s electionId)
      && (startTime (electionAt s electionId) <=? block_timestamp tx)
      && (block_timestamp tx <=? endTime (electionAt s electionId))
  | NotYetVoted =>
      negb (bool_decide
              ((msg_sender tx, electionId, positionId) ∈ hasVoted s))
  | CandidateActive =>
      candidateIsActive
        (candidateAt (positionAt (electionAt s electionId) positionId)
           candidateId)
  | HashNonZero => negb (voteHash =? 0)
  end.

(** The name the specification gives the failure of each guard; the
    re-entrancy guard has none. *)
Definition guardError (g : Guard) : option SpecError :=
  match g with
  | CallerRegistered => Some Unauthorized
  | NotReentered => None
  | NotPaused => Some SystemPaused
  | ElectionExists => Some ElectionNotFound
  | VotingOpen => Some VotingNotOpen
  | NotYetVoted => Some AlreadyVoted
  | CandidateActive => Some InvalidCandidate
  | HashNonZero => Some DuplicateVoteHash
  end.

(** The three counters [castVote] increments have room for one more. *)
Definition countersBelowMax (electionId positionId candidateId : string)
  (s : State) : Prop :=
  let election := electionAt s electionId in
  let position := positionAt election positionId in
  tallyAt position candidateId < MAX_UINT256
  ∧ voteCount (candidateAt position candidateId) < MAX_UINT256
  ∧ totalVotes election < MAX_UINT256.

(** ** Counting over the event log and over the stored records *)

(** The record a [VoteCast] event describes. *)
Definition voteOfCast (eid pid cid : string) (who : address) (hash : bytes32)
  (time : uint256) : Vote :=
  {| voteElectionId := eid; votePositionId := pid; voteCandidateId := cid;
     voter := who; timestamp := time; voteHash := hash; isVerified := true |}.

(** The most recent successful [castVote] with hash [h]. *)
Fixpoint latestCast (h : bytes32) (log : list Event) : option Vote :=
  match log with
  | [] => None
  | VoteCast eid pid cid who hash time :: rest =>
      if bool_decide (hash = h) then Some (voteOfCast eid pid cid who hash time)
      else latestCast h rest
  | _ :: rest => latestCast h rest
  end.

(** The number of successful [castVote] calls for an election. *)
Fixpoint castsOfElection (electionId : string) (log : list Event) : N :=
  match log with
  | [] => 0
  | VoteCast eid _ _ _ _ _ :: rest =>
      (if bool_decide (eid = electionId) then 1 else 0)
      + castsOfElection electionId rest
  | _ :: rest => castsOfElection electionId rest
  end.

(** The number of successful [castVote] calls for a candidate. *)
Fixpoint castsOfCandidate (electionId positionId candidateId : string)
  (log : list Event) : N :=
  match log with
  | [] => 0
  | VoteCast eid pid cid _ _ _ :: rest =>
      (if bool_decide (eid = electionId ∧ pid = positionId ∧ cid = candidateId)
       then 1 else 0)
      + castsOfCandidate electionId positionId candidateId rest
  | _ :: rest => castsOfCandidate electionId positionId candidateId rest
  end.

(** The number of successful [castVote] calls for a candidate since the
    candidate was registered (the log is newest first, so the count stops at
    the first [CandidateRegistered] of the candidate). *)
Fixpoint castsSinceRegistration (electionId positionId candidateId : string)
  (log : list Event) : N :=
  match log with
  | [] => 0
  | VoteCast eid pid cid _ _ _ :: rest =>
      (if bool_decide (eid = electionId ∧ pid = positionId ∧ cid = candidateId)
       then 1 else 0)
      + castsSinceRegistration electionId positionId candidateId rest
  | CandidateRegistered eid pid cid _ _ :: rest =>
      if bool_decide (eid = electionId ∧ pid = positionId ∧ cid = candidateId)
      then 0
      else castsSinceRegistration electionId positionId candidateId rest
  | _ :: rest => castsSinceRegistration electionId positionId candidateId rest
  end.

(** The number of stored vote records of an election, and of a candidate. *)
Definition storedVotesOfElection (electionId : string) (s : State) : N :=
  N.of_nat
    (size (filter (λ kv : bytes32 * Vote, voteElectionId kv.2 = electionId)
             (votes s))).

Definition storedVotesOfCandidate (electionId positionId candidateId : string)
  (s : State) : N :=
  N.of_nat
    (size
       (filter
          (λ kv : bytes32 * Vote,
             voteElectionId kv.2 = electionId
             ∧ votePositionId kv.2 = positionId
             ∧ voteCandidateId kv.2 = candidateId)
          (votes s))).

(** ** The scenario of the specification

    Election ["E1"] with window [[1000, 4600]], position ["P1"] with
    candidates ["C1"] and ["C2"], started at 1000; voters 10 and 11
    registered; the deployer and administrator is account 1. *)

Definition txOf (sender now : N) : Tx :=
  {| msg_sender := sender; block_timestamp := now |}.

Definition deployed : State := constructor (txOf 1 900).

Definition configureE1 : list (Call * Tx) :=
  [ (CreateElection "E1" "General" "General election" 1000 4600, txOf 1 910);
    (AddPosition "E1" "P1" "President" "Head of state" 1 1, txOf 1 920);
    (RegisterCandidate "E1" "P1" "C1" "Ada" "Blue" "m1" 21, txOf 1 930);
    (RegisterCandidate "E1" "P1" "C2" "Bob" "Red" "m2" 22, txOf 1 940) ].

Definition openE1 : list (Call * Tx) :=
  configureE1
  ++ [ (StartElection "E1", txOf 1 1000);
       (RegisterVoter 10, txOf 1 1001);
       (RegisterVoter 11, txOf 1 1002) ].

(** ["E1"] is active and nobody has voted. *)
Definition votingOpen : State := transactAll openE1 deployed.

(** Voter 10 has cast hash [0xAA] for ["C1"] at time 1010. *)
Definition afterFirstVote : State :=
  transact (CastVote "E1" "P1" "C1" 170) (txOf 10 1010) votingOpen.

(** Voter 11 has then cast the same hash for ["C2"] at time 1020. *)
Definition afterSameHash : State :=
  transact (CastVote "E1" "P1" "C2" 170) (txOf 11 1020) afterFirstVote.

(** ["E1"] has been ended at time 2000 after the first vote. *)
Definition afterEnd : State :=
  transact (EndElection "E1") (txOf 1 2000) afterFirstVote.

(** The results of ["E1"] have then been published. *)
Definition afterPublish : State :=
  transact (PublishResults "E1") (txOf 1 2010) afterEnd.

(** ["E1"] is configured and was never started. *)
Definition neverStarted : State := transactAll configureE1 deployed.

(** The system has been paused while ["E1"] is open. *)
Definition pausedWhileOpen : State :=
  transact Pause (txOf 1 1005) votingOpen.

(** The system has been paused right after deployment. *)
Definition pausedAtStart : State := transact Pause (txOf 1 901) deployed.

(** ** Further readings of the storage and of the log *)

Definition isCastVote (c : Call) : bool :=
  match c with
  | CastVote _ _ _ _ => true
  | _ => false
  end.

(** The hashes of the successful [castVote] calls, newest first. *)
Fixpoint castHashes (log : list Event) : list bytes32 :=
  match log with
  | [] => []
  | VoteCast _ _ _ _ hash _ :: rest => hash :: castHashes rest
  | _ :: rest => castHashes rest
  end.

(** Whether [registerCandidate] has returned for the candidate. *)
Fixpoint registeredInLog (electionId positionId candidateId : string)
  (log : list Event) : bool :=
  match log with
  | [] => false
  | CandidateRegistered eid pid cid _ _ :: rest =>
      bool_decide (eid = electionId ∧ pid = positionId ∧ cid = candidateId)
      || registeredInLog electionId positionId candidateId rest
  | _ :: rest => registeredInLog electionId positionId candidateId rest
  end.

(** The fields of an election that only [createElection] writes. *)
Definition electionHeader (e : Election)
  : string * string * uint256 * uint256 * address :=
  (title e, description e, startTime e, endTime e, creator e).

(** Whether [endElection] has returned for the election. *)
Fixpoint endedInLog (electionId : string) (log : list Event) : bool :=
  match log with
  | [] => false
  | ElectionEnded eid :: rest =>
      bool_decide (eid = electionId) || endedInLog electionId rest
  | _ :: rest => endedInLog electionId rest
  end.

(** How many times [registerCandidate] has returned for the candidate. *)
Fixpoint registrationsInLog (electionId positionId candidateId : string)
  (log : list Event) : N :=
  match log with
  | [] => 0
  | CandidateRegistered eid pid cid _ _ :: rest =>
      (if bool_decide (eid = electionId ∧ pid = positionId ∧ cid = candidateId)
       then 1 else 0)
      + registrationsInLog electionId positionId candidateId rest
  | _ :: rest => registrationsInLog electionId positionId candidateId rest
  end.

(** ** Counting over the transactions themselves *)

(** Whether the call returns on the storage. *)
Definition returns (c : Call) (tx : Tx) (s : State) : bool :=
  match exec c tx s with
  | Ok _ => true
  | Revert _ => false
  end.

(** How many calls of a kind returned, in a sequence of transactions run
    from the storage [s]. *)
Fixpoint returnedCalls (kind : Call → bool) (txs : list (Call * Tx))
  (s : State) : N :=
  match txs with
  | [] => 0
  | ct :: rest =>
      (if kind ct.1 && returns ct.1 ct.2 s then 1 else 0)
      + returnedCalls kind rest (transact ct.1 ct.2 s)
  end.

(** The hashes of the [castVote] calls that returned, in a sequence of
    transactions run from the storage [s], in the order of the calls. *)
Fixpoint returnedHashes (txs : list (Call * Tx)) (s : State) : list bytes32 :=
  match txs with
  | [] => []
  | ct :: rest =>
      match ct.1 with
      | CastVote _ _ _ hash => if returns ct.1 ct.2 s then [hash] else []
      | _ => []
      end ++ returnedHashes rest (transact ct.1 ct.2 s)
  end.

(** [castVote] for an election, and for a candidate; [registerCandidate]
    of a candidate. *)
Definition isCastIn (electionId : string) (c : Call) : bool :=
  match c with
  | CastVote eid _ _ _ => bool_decide (eid = electionId)
  | _ => false
  end.

Definition isCastFor (electionId positionId candidateId : string) (c : Call)
  : bool :=
  match c with
  | CastVote eid pid cid _ =>
      bool_decide (eid = electionId ∧ pid = positionId ∧ cid = candidateId)
  | _ => false
  end.

Definition isRegistrationOf (electionId positionId candidateId : string)
  (c : Call) : bool :=
  match c with
  | RegisterCandidate eid pid cid _ _ _ _ =>
      bool_decide (eid = electionId ∧ pid = positionId ∧ cid = candidateId)
  | _ => false
  end.

(** ** The scenario, continued *)

(** After the results of ["E1"] were published, ["E1"] has been started
    again and voter 11 has voted for ["C2"]. *)
Definition votedAfterPublish : State :=
  transactAll
    [ (StartElection "E1", txOf 1 2100);
      (CastVote "E1" "P1" "C2" 171, txOf 11 2110) ]
    afterPublish.

(** The transactions up to the first vote, and up to the second vote with
    the same hash. *)
Definition untilFirstVote : list (Call * Tx) :=
  openE1 ++ [ (CastVote "E1" "P1" "C1" 170, txOf 10 1010) ].

Definition untilSameHash : list (Call * Tx) :=
  untilFirstVote ++ [ (CastVote "E1" "P1" "C2" 170, txOf 11 1020) ].

(** * Properties *)

(** ** Reasoning about calls *)

Lemma bind_Ok {A B : Type} (c : Result A) (k : A → Result B) (b : B) :
  bind c k = Ok b ↔ ∃ a, c = Ok a ∧ k a = Ok b.
Proof.
  destruct c as [a|e]; simpl; split.
  - eauto.
  - intros (a' & [= <-] & Hk). exact Hk.
  - discriminate.
  - intros (a' & Hc & _). discriminate.
Qed.

Lemma require_Ok (b : bool) (e : Error) (u : unit) :
  require b e = Ok u ↔ b = true.
Proof. destruct b, u; simpl; split; congruence. Qed.

Lemma increment_Ok (x y : N) :
  increment x = Ok y ↔ x < MAX_UINT256 ∧ y = x + 1.
Proof.
  unfold increment. destruct (N.ltb_spec x MAX_UINT256); split.
  - intros [= <-]. done.
  - intros [_ ->]. done.
  - discriminate.
  - intros [? _]. lia.
Qed.

Lemma increment_below (x : N) : x < MAX_UINT256 → increment x = Ok (x + 1).
Proof. intros Hx. by apply increment_Ok. Qed.

Ltac inv_result :=
  repeat match goal with
  | H : bind _ _ = Ok _ |- _ => apply bind_Ok in H; destruct H as (? & ? & H)
  | H : require _ _ = Ok _ |- _ => apply require_Ok in H
  | H : increment _ = Ok _ |- _ => apply increment_Ok in H; destruct H as [? ->]
  | H : Ok _ = Ok _ |- _ => injection H as H
  | H : Revert _ = Ok _ |- _ => discriminate H
  | H : negb _ = true |- _ => apply negb_true_iff in H
  | H : bool_decide _ = true |- _ => apply bool_decide_eq_true_1 in H
  | H : bool_decide _ = false |- _ => apply bool_decide_eq_false_1 in H
  end.

Ltac unfold_calls_in H :=
  unfold exec, registerVoter, revokeVoter, createElection, addPosition,
    registerCandidate, startElection, endElection, castVote, publishResults,
    pause, unpause, grantRole, revokeRole, renounceRole, _pause, _unpause,
    onlyRole, onlyElectionAdmin, onlyRegisteredVoter, electionMustExist,
    votingMustBeActive, hasNotVoted, whenNotPaused, whenPaused,
    _nonReentrantBefore, _nonReentrantAfter in H.

Ltac unfold_calls :=
  unfold exec, registerVoter, revokeVoter, createElection, addPosition,
    registerCandidate, startElection, endElection, castVote, publishResults,
    pause, unpause, grantRole, revokeRole, renounceRole, _pause, _unpause,
    onlyRole, onlyElectionAdmin, onlyRegisteredVoter, electionMustExist,
    votingMustBeActive, hasNotVoted, whenNotPaused, whenPaused,
    _nonReentrantBefore, _nonReentrantAfter.

(** From [H : call = Ok s'] to the guards that held and the storage
    written. *)
Ltac inv_call H := unfold_calls_in H; cbv zeta in H; inv_result; subst.

(** Both branches of every [_grantRole] and [_revokeRole] in the goal. *)
Ltac split_roles :=
  unfold _grantRole, _revokeRole in *;
  repeat match goal with
  | |- context [if hasRole ?r ?a ?s then _ else _] =>
      destruct (hasRole r a s) eqn:?
  | H : context [if hasRole ?r ?a ?s then _ else _] |- _ =>
      destruct (hasRole r a s) eqn:?
  end.

(** Induction over the transactions that built a reachable storage: a goal
    for the deployment, and one for each call that returned. *)
Ltac reachable_induction Hreach :=
  let tx := fresh "tx" in
  let c := fresh "c" in
  let s := fresh "s" in
  let Hs := fresh "Hs" in
  let IH := fresh "IH" in
  let Hc := fresh "Hc" in
  let s' := fresh "s'" in
  induction Hreach as [tx | c tx s Hs IH];
  [ unfold constructor
  | unfold transact; destruct (exec c tx s) as [s'|] eqn:Hc; [|exact IH];
    destruct c; inv_call Hc ].

(** ** Reading what was stored *)

Lemma electionAt_store (eid eid' : string) (e : Election) (s : State) :
  electionAt (store_election eid e s) eid'
  = if decide (eid = eid') then e else electionAt s eid'.
Proof.
  unfold electionAt, store_election. simpl. destruct (decide (eid = eid')) as [->|].
  - by rewrite lookup_insert_eq.
  - by rewrite lookup_insert_ne.
Qed.

Lemma positionAt_store (pid pid' : string) (p : Position) (e : Election) :
  positionAt (store_position pid p e) pid'
  = if decide (pid = pid') then p else positionAt e pid'.
Proof.
  unfold positionAt, store_position. simpl. destruct (decide (pid = pid')) as [->|].
  - by rewrite lookup_insert_eq.
  - by rewrite lookup_insert_ne.
Qed.

Lemma candidateAt_store (cid cid' : string) (c : Candidate) (p : Position) :
  candidateAt (store_candidate cid c p) cid'
  = if decide (cid = cid') then c else candidateAt p cid'.
Proof.
  unfold candidateAt, store_candidate. simpl. destruct (decide (cid = cid')) as [->|].
  - by rewrite lookup_insert_eq.
  - by rewrite lookup_insert_ne.
Qed.

Lemma tallyAt_set (cid cid' : string) (n : N) (p : Position) :
  tallyAt (set_tally cid n p) cid'
  = if decide (cid = cid') then n else tallyAt p cid'.
Proof.
  unfold tallyAt, set_tally. simpl. destruct (decide (cid = cid')) as [->|].
  - by rewrite lookup_insert_eq.
  - by rewrite lookup_insert_ne.
Qed.

(** ** Sequences of transactions *)

Lemma reachable_transactAll (txs : list (Call * Tx)) (s : State) :
  reachable s → reachable (transactAll txs s).
Proof.
  revert s. induction txs as [|[c tx] txs IH]; intros s Hs; simpl.
  - exact Hs.
  - apply IH. by apply reachable_transact.
Qed.

Lemma reachable_deployed : reachable deployed.
Proof. apply reachable_deploy. Qed.

Lemma reachable_votingOpen : reachable votingOpen.
Proof. apply reachable_transactAll, reachable_deployed. Qed.

Lemma reachable_afterFirstVote : reachable afterFirstVote.
Proof. apply reachable_transact, reachable_votingOpen. Qed.

Lemma reachable_afterSameHash : reachable afterSameHash.
Proof. apply reachable_transact, reachable_afterFirstVote. Qed.

Lemma reachable_afterEnd : reachable afterEnd.
Proof. apply reachable_transact, reachable_afterFirstVote. Qed.

Lemma reachable_afterPublish : reachable afterPublish.
Proof. apply reachable_transact, reachable_afterEnd. Qed.

Lemma reachable_neverStarted : reachable neverStarted.
Proof. apply reachable_transactAll, reachable_deployed. Qed.

Lemma reachable_pausedWhileOpen : reachable pausedWhileOpen.
Proof. apply reachable_transact, reachable_votingOpen. Qed.

Lemma reachable_pausedAtStart : reachable pausedAtStart.
Proof. apply reachable_transact, reachable_deployed. Qed.

(** ** Invariants of the reachable storage *)

(** The slot of an election that was never created is unwritten. *)
Lemma unknown_election_slot (s : State) :
  reachable s →
  ∀ eid, eid ∉ electionExists s → elections s !! eid = None.
Proof.
  intros Hreach. reachable_induction Hreach; intros eid' Hnot;
    split_roles; unfold store_election in *; simpl in *;
    try (by apply IH); try done.
  all: rewrite lookup_insert_ne by set_solver; apply IH; set_solver.
Qed.

(** Every stored record carries the mark of its (voter, election, position)
    in the [hasVoted] index. *)
Lemma stored_vote_marked (s : State) :
  reachable s →
  ∀ h v, votes s !! h = Some v →
    (voter v, voteElectionId v, votePositionId v) ∈ hasVoted s.
Proof.
  intros Hreach. reachable_induction Hreach; intros h' v Hv;
    split_roles; simpl in *; try (by eapply IH); try done.
  destruct (decide (hash = h')) as [->|Hne].
  - rewrite lookup_insert_eq in Hv. injection Hv as <-. simpl. set_solver.
  - rewrite lookup_insert_ne in Hv by done. apply IH in Hv. set_solver.
Qed.

(** The record stored under a hash is the one of the most recent successful
    [castVote] with that hash. *)
Lemma votes_latestCast (s : State) :
  reachable s → ∀ h, votes s !! h = latestCast h (events s).
Proof.
  intros Hreach. reachable_induction Hreach; intros h';
    split_roles; simpl; rewrite ?IH; try done.
  case_bool_decide as Hh.
  - subst. by rewrite lookup_insert_eq.
  - by rewrite lookup_insert_ne.
Qed.

(** Reads of slots just written: unfold the accessors down to map lookups
    and decide each lookup of an insertion. *)
Ltac unfold_storage :=
  unfold electionAt, positionAt, candidateAt, tallyAt, voteAt, store_election,
    store_position, store_candidate, set_tally in *; simpl in *.

Ltac case_lookup :=
  repeat match goal with
  | |- context [<[?a := _]> _ !! ?b] =>
      rewrite (lookup_insert _ a b); destruct (decide (a = b)); subst; simpl
  end.

Ltac case_events :=
  repeat match goal with
  | |- context [bool_decide ?P] => destruct (bool_decide_reflect P)
  end.

(** [Election.totalVotes] counts the successful [castVote] calls of the
    election. *)
Lemma totalVotes_casts (s : State) :
  reachable s →
  ∀ eid, totalVotes (electionAt s eid) = castsOfElection eid (events s).
Proof.
  intros Hreach. reachable_induction Hreach; intros eid';
    split_roles; simpl; rewrite <- ?IH; try done;
    unfold_storage; case_lookup; case_events; try done; try lia.
  by rewrite (unknown_election_slot _ Hs).
Qed.

(** [Position.voteCount[candidateId]] counts the successful [castVote] calls
    for the candidate. *)
Lemma tally_casts (s : State) :
  reachable s →
  ∀ eid pid cid,
    tallyAt (positionAt (electionAt s eid) pid) cid
    = castsOfCandidate eid pid cid (events s).
Proof.
  intros Hreach. reachable_induction Hreach; intros eid' pid' cid';
    split_roles; simpl; rewrite <- ?IH; try done;
    unfold_storage; case_lookup; case_events; try done; try lia;
    try (exfalso; intuition congruence).
Qed.

(** [Candidate.voteCount] counts the successful [castVote] calls for the
    candidate since [registerCandidate] wrote the candidate. *)
Lemma voteCount_casts (s : State) :
  reachable s →
  ∀ eid pid cid,
    voteCount (candidateAt (positionAt (electionAt s eid) pid) cid)
    = castsSinceRegistration eid pid cid (events s).
Proof.
  intros Hreach. reachable_induction Hreach; intros eid' pid' cid';
    split_roles; simpl; rewrite <- ?IH; try done;
    unfold_storage; case_lookup; case_events; try done; try lia;
    try (exfalso; intuition congruence).
Qed.

(** ** The guards of [castVote] *)

(** Rewrite the guard conditions known to hold or fail into the goal. *)
Ltac use_guards :=
  unfold electionAt in *; simpl in *;
  repeat match goal with
  | H : _ && _ = true |- _ => apply andb_true_iff in H; destruct H
  | H : ?b = true |- context [?b] => rewrite H; simpl
  | H : ?b = false |- context [?b] => rewrite H; simpl
  end.

(** [castVote] reverts at the first guard, in the order of [castVoteGuards],
    whose condition fails. *)
Lemma castVote_fails_at (eid pid cid : string) (h : N) (tx : Tx) (s : State)
  (pre post : list Guard) (g : Guard) :
  castVoteGuards = pre ++ g :: post →
  Forall (λ g', guardHolds g' eid pid cid h tx s = true) pre →
  guardHolds g eid pid cid h tx s = false →
  ∃ e, castVote eid pid cid h tx s = Revert e ∧ spec_error e = guardError g.
Proof.
  unfold castVoteGuards. intros Hsplit Hpre Hg.
  repeat match goal with
  | Hs : _ = ?l ++ _ :: _, Hf : Forall _ ?l |- _ =>
      is_var l; destruct l as [|? l]; simpl in Hs;
      [ first [discriminate Hs | injection Hs as <- <-]
      | first [ discriminate Hs
              | injection Hs as <- Hs;
                apply Forall_cons in Hf as [? Hf] ] ]
  end.
  all: simpl in *; unfold_calls; cbv zeta.
  5: { apply andb_false_iff in Hg as [Hg|Hg];
       [apply andb_false_iff in Hg as [Hg|Hg]|]; use_guards;
       repeat match goal with
       | |- context [require ?b _] => destruct b; simpl
       end; by eexists. }
  all: use_guards; by eexists.
Qed.

(** When every guard holds and no counter is at its maximum, [castVote]
    returns. *)
Lemma castVote_succeeds (eid pid cid : string) (h : N) (tx : Tx) (s : State) :
  Forall (λ g, guardHolds g eid pid cid h tx s = true) castVoteGuards →
  countersBelowMax eid pid cid s →
  ∃ s', castVote eid pid cid h tx s = Ok s'.
Proof.
  unfold castVoteGuards, countersBelowMax.
  intros Hall (Htally & Hcount & Htotal).
  repeat (apply Forall_cons in Hall as [? Hall]).
  simpl in *. unfold_calls. cbv zeta. use_guards.
  change (tallyAt (mark_voted ?a ?p) ?c) with (tallyAt p c).
  rewrite (increment_below _ Htally). simpl.
  rewrite (increment_below _ Hcount). simpl.
  rewrite (increment_below _ Htotal). simpl. eauto.
Qed.

Lemma transact_revert (c : Call) (tx : Tx) (s : State) (e : Error) :
  exec c tx s = Revert e → transact c tx s = s.
Proof. unfold transact. by intros ->. Qed.

Lemma transact_ok (c : Call) (tx : Tx) (s s' : State) :
  exec c tx s = Ok s' → transact c tx s = s'.
Proof. unfold transact. by intros ->. Qed.

(** [castVote] reverts on the hash only when the hash is zero. *)
Lemma castVote_InvalidVoteHash (eid pid cid : string) (h : N) (tx : Tx)
  (s : State) (e : Error) :
  castVote eid pid cid h tx s = Revert e →
  spec_error e = Some DuplicateVoteHash → h = 0.
Proof.
  unfold_calls. unfold increment. cbv zeta.
  repeat match goal with
  | |- context [require ?b _] => destruct b eqn:?; simpl
  | |- context [if ?b then _ else _] => destruct b eqn:?; simpl
  end; intros [= <-]; try discriminate.
  intros _. apply N.eqb_eq. by apply negb_false_iff.
Qed.

(** C7 (amended): [castVote] runs its guards in the order
    (1) caller registered, else Unauthorized; (2) not re-entered;
    (3) not paused, else SystemPaused; (4) election exists, else
    ElectionNotFound; (5) election active and inside its window, else
    VotingNotOpen; (6) not yet voted, else AlreadyVoted; (7) candidate
    active, else InvalidCandidate; (8) hash non-zero, else
    DuplicateVoteHash.  Whenever the guards before one hold and that one
    fails, the call reverts with the error of that guard, whatever the later
    guards would say, and the storage is unchanged. *)
Theorem castVote_guard_order (eid pid cid : string) (h : N) (tx : Tx)
  (s : State) (pre post : list Guard) (g : Guard) :
  castVoteGuards = pre ++ g :: post →
  Forall (λ g', guardHolds g' eid pid cid h tx s = true) pre →
  guardHolds g eid pid cid h tx s = false →
  ∃ e, castVote eid pid cid h tx s = Revert e
       ∧ spec_error e = guardError g
       ∧ transact (CastVote eid pid cid h) tx s = s.
Proof.
  intros Hsplit Hpre Hg.
  destruct (castVote_fails_at eid pid cid h tx s pre post g Hsplit Hpre Hg)
    as (e & Hrev & Herr).
  exists e. split; [exact Hrev|]. split; [exact Herr|].
  by apply (transact_revert _ _ _ e).
Qed.

Lemma castVote_guard_order_witness :
  ∃ e, castVote "E1" "P1" "C1" 171 (txOf 10 1006) pausedWhileOpen = Revert e
       ∧ spec_error e = Some SystemPaused
       ∧ transact (CastVote "E1" "P1" "C1" 171) (txOf 10 1006) pausedWhileOpen
         = pausedWhileOpen.
Proof.
  apply (castVote_guard_order "E1" "P1" "C1" 171 (txOf 10 1006)
           pausedWhileOpen [CallerRegistered; NotReentered]
           [ElectionExists; VotingOpen; NotYetVoted; CandidateActive;
            HashNonZero] NotPaused).
  - reflexivity.
  - constructor; [vm_compute; reflexivity|].
    constructor; [vm_compute; reflexivity|]. constructor.
  - vm_compute. reflexivity.
Defined.

(** C7, as stated, fails: with the system paused, the [castVote] of a caller
    who is not registered reverts with "Caller is not a registered voter"
    (Unauthorized), not with SystemPaused. *)
Lemma castVote_paused_unregistered_counterexample :
  reachable pausedAtStart
  ∧ paused pausedAtStart = true
  ∧ castVote "E1" "P1" "C1" 170 (txOf 99 905) pausedAtStart
    = Revert NotRegisteredVoter
  ∧ spec_error NotRegisteredVoter = Some Unauthorized
  ∧ spec_error NotRegisteredVoter ≠ Some SystemPaused.
Proof.
  split; [exact reachable_pausedAtStart|].
  split; [vm_compute; reflexivity|].
  split; [vm_compute; reflexivity|].
  split; [reflexivity | discriminate].
Qed.

(** C1 (amended): the hash guard of [castVote] rejects the zero hash and no
    other.  When the guards before it hold, a zero [voteHash] makes the call
    revert with "Invalid vote hash" (DuplicateVoteHash) and leaves the
    storage unchanged; a non-zero [voteHash] is not compared with the vote
    index: whether or not a record is stored under it, the call returns
    (no counter being at its maximum) and the record under [voteHash] is
    then the one of this call.  No [castVote] reverts with DuplicateVoteHash
    for a non-zero hash. *)
Theorem castVote_hash_guard (eid pid cid : string) (h : N) (tx : Tx)
  (s : State) :
  Forall (λ g, guardHolds g eid pid cid h tx s = true)
    [CallerRegistered; NotReentered; NotPaused; ElectionExists; VotingOpen;
     NotYetVoted; CandidateActive] →
  (h = 0 →
   ∃ e, castVote eid pid cid h tx s = Revert e
        ∧ spec_error e = Some DuplicateVoteHash
        ∧ transact (CastVote eid pid cid h) tx s = s)
  ∧ (h ≠ 0 → countersBelowMax eid pid cid s →
     ∃ s', castVote eid pid cid h tx s = Ok s'
           ∧ votes s' !! h
             = Some (voteOfCast eid pid cid (msg_sender tx) h
                       (block_timestamp tx)))
  ∧ (∀ e, castVote eid pid cid h tx s = Revert e →
          spec_error e = Some DuplicateVoteHash → h = 0).
Proof.
  intros Hpre. split; [|split].
  - intros ->.
    destruct (castVote_fails_at eid pid cid 0 tx s
                [CallerRegistered; NotReentered; NotPaused; ElectionExists;
                 VotingOpen; NotYetVoted; CandidateActive] [] HashNonZero)
      as (e & Hrev & Herr); [reflexivity | exact Hpre | reflexivity |].
    exists e. split; [exact Hrev|]. split; [exact Herr|].
    by apply (transact_revert _ _ _ e).
  - intros Hh Hroom.
    destruct (castVote_succeeds eid pid cid h tx s) as [s' Hok].
    + unfold castVoteGuards.
      apply Forall_app_2 with (l1 := [_; _; _; _; _; _; _]) (l2 := [_]);
        [exact Hpre|].
      constructor; [|constructor]. simpl. apply negb_true_iff.
      by apply N.eqb_neq.
    + exact Hroom.
    + exists s'. split; [exact Hok|].
      inv_call Hok. simpl. by rewrite lookup_insert_eq.
  - intros e. apply castVote_InvalidVoteHash.
Qed.

Lemma castVote_hash_guard_witness :
  ∃ s', castVote "E1" "P1" "C2" 170 (txOf 11 1020) afterFirstVote = Ok s'
        ∧ votes s' !! 170 = Some (voteOfCast "E1" "P1" "C2" 11 170 1020).
Proof.
  apply (castVote_hash_guard "E1" "P1" "C2" 170 (txOf 11 1020) afterFirstVote).
  - repeat (constructor; [vm_compute; reflexivity|]). constructor.
  - discriminate.
  - split; [|split]; vm_compute; reflexivity.
Defined.

(** C1, as stated, fails: hash [0xAA] is stored for voter 10 after the first
    vote, and a [castVote] of voter 11 with the same hash returns; the record
    under [0xAA] is then the one of voter 11. *)
Lemma castVote_stored_hash_counterexample :
  reachable afterFirstVote
  ∧ votes afterFirstVote !! 170 = Some (voteOfCast "E1" "P1" "C1" 10 170 1010)
  ∧ castVote "E1" "P1" "C2" 170 (txOf 11 1020) afterFirstVote
    = Ok afterSameHash
  ∧ votes afterSameHash !! 170
    = Some (voteOfCast "E1" "P1" "C2" 11 170 1020).
Proof.
  split; [exact reachable_afterFirstVote|].
  split; [vm_compute; reflexivity|].
  split; vm_compute; reflexivity.
Qed.

(** ** One vote per voter and position *)

(** No two stored records have the same voter, election and position. *)
Lemma one_record_per_triple (s : State) :
  reachable s →
  ∀ h1 h2 v1 v2,
    votes s !! h1 = Some v1 → votes s !! h2 = Some v2 →
    voter v1 = voter v2 → voteElectionId v1 = voteElectionId v2 →
    votePositionId v1 = votePositionId v2 → h1 = h2.
Proof.
  intros Hreach. assert (Hmark := stored_vote_marked).
  reachable_induction Hreach; intros h1 h2 v1 v2 Hl1 Hl2 Hv He Hp;
    split_roles; simpl in *; try (by eapply IH); try done.
  destruct (decide (h1 = hash)) as [->|Hne1];
    destruct (decide (h2 = hash)) as [->|Hne2]; try done.
  - rewrite lookup_insert_eq in Hl1. rewrite lookup_insert_ne in Hl2 by done.
    injection Hl1 as <-. simpl in *.
    apply (Hmark _ Hs) in Hl2. rewrite <- Hv, <- He, <- Hp in Hl2. done.
  - rewrite lookup_insert_eq in Hl2. rewrite lookup_insert_ne in Hl1 by done.
    injection Hl2 as <-. simpl in *.
    apply (Hmark _ Hs) in Hl1. rewrite Hv, He, Hp in Hl1. done.
  - rewrite lookup_insert_ne in Hl1 by done.
    rewrite lookup_insert_ne in Hl2 by done. by eapply IH.
Qed.

(** A [castVote] that returns found the caller's mark absent and sets it. *)
Lemma castVote_marks (eid pid cid : string) (h : N) (tx : Tx) (s s' : State) :
  castVote eid pid cid h tx s = Ok s' →
  ((msg_sender tx, eid, pid) ∉ hasVoted s)
  ∧ ((msg_sender tx, eid, pid) ∈ hasVoted s').
Proof.
  intros Hok. inv_call Hok. simpl. split; [done | set_solver].
Qed.

(** C2: in every reachable storage no two stored vote records have the same
    voter, election and position.  A [castVote] by a voter whose mark for the
    position is set in the [hasVoted] index reverts, whatever candidate and
    hash it gives, and leaves the storage unchanged; the error is
    AlreadyVoted whenever the guards that run before [hasNotVoted] hold.  A
    [castVote] that returns has set the mark of its caller for its
    position. *)
Theorem one_vote_per_voter_and_position (s : State) (eid pid cid : string)
  (h : N) (tx : Tx) :
  reachable s →
  (∀ h1 h2 v1 v2,
     votes s !! h1 = Some v1 → votes s !! h2 = Some v2 →
     voter v1 = voter v2 → voteElectionId v1 = voteElectionId v2 →
     votePositionId v1 = votePositionId v2 → h1 = h2)
  ∧ (hasVoterVoted (msg_sender tx) eid pid s = true →
     ∃ e, castVote eid pid cid h tx s = Revert e
          ∧ transact (CastVote eid pid cid h) tx s = s
          ∧ (Forall (λ g, guardHolds g eid pid cid h tx s = true)
               [CallerRegistered; NotReentered; NotPaused; ElectionExists;
                VotingOpen] →
             spec_error e = Some AlreadyVoted))
  ∧ (∀ s', castVote eid pid cid h tx s = Ok s' →
           hasVoterVoted (msg_sender tx) eid pid s' = true).
Proof.
  intros Hreach. split; [|split].
  - by apply one_record_per_triple.
  - unfold hasVoterVoted. intros Hvoted.
    apply bool_decide_eq_true_1 in Hvoted.
    destruct (castVote eid pid cid h tx s) as [s'|e] eqn:Hcall.
    { apply castVote_marks in Hcall as [Hnot _]. done. }
    exists e. split; [done|]. split.
    + by apply (transact_revert _ _ _ e).
    + intros Hpre.
      destruct (castVote_fails_at eid pid cid h tx s
                  [CallerRegistered; NotReentered; NotPaused; ElectionExists;
                   VotingOpen] [CandidateActive; HashNonZero] NotYetVoted)
        as (e' & Hrev & Herr); [reflexivity | exact Hpre | |].
      * simpl. apply negb_false_iff. by apply bool_decide_eq_true_2.
      * rewrite Hcall in Hrev. by injection Hrev as ->.
  - intros s' Hok. unfold hasVoterVoted. apply bool_decide_eq_true_2.
    by apply castVote_marks in Hok as [_ Hin].
Qed.

Lemma one_vote_per_voter_and_position_witness :
  ∃ e, castVote "E1" "P1" "C2" 171 (txOf 10 1030) afterFirstVote = Revert e
       ∧ transact (CastVote "E1" "P1" "C2" 171) (txOf 10 1030) afterFirstVote
         = afterFirstVote
       ∧ (Forall
            (λ g, guardHolds g "E1" "P1" "C2" 171 (txOf 10 1030) afterFirstVote
                  = true)
            [CallerRegistered; NotReentered; NotPaused; ElectionExists;
             VotingOpen] →
          spec_error e = Some AlreadyVoted).
Proof.
  apply (one_vote_per_voter_and_position afterFirstVote "E1" "P1" "C2" 171
           (txOf 10 1030) reachable_afterFirstVote).
  vm_compute. reflexivity.
Defined.

(** ** Looking a vote up *)

Lemma verifyVote_stored (h : N) (s : State) (v : Vote) :
  votes s !! h = Some v → voter v ≠ 0 →
  verifyVote h s
  = Ok (voteElectionId v, votePositionId v, voteCandidateId v, voter v,
        timestamp v, isVerified v).
Proof.
  intros Hv Hnz. unfold verifyVote, voteAt. rewrite Hv. simpl.
  apply N.eqb_neq in Hnz. by rewrite Hnz.
Qed.

(** C9 (amended): in every reachable storage [verifyVote h] returns the
    election, position, candidate, caller and time of the most recent
    successful [castVote] with hash [h] (the caller not being the zero
    address), and reverts with VoteNotFound when no [castVote] with hash [h]
    has returned.  In particular right after a [castVote] with hash [h] has
    returned, [verifyVote h] returns the arguments, caller and time of that
    call. *)
Theorem verifyVote_latest_cast (s : State) (h : N) :
  reachable s →
  (∀ v, latestCast h (events s) = Some v → voter v ≠ 0 →
        verifyVote h s
        = Ok (voteElectionId v, votePositionId v, voteCandidateId v, voter v,
              timestamp v, true))
  ∧ (latestCast h (events s) = None →
     verifyVote h s = Revert VoteNotFoundError)
  ∧ (∀ eid pid cid tx s',
       castVote eid pid cid h tx s = Ok s' → msg_sender tx ≠ 0 →
       verifyVote h s'
       = Ok (eid, pid, cid, msg_sender tx, block_timestamp tx, true)).
Proof.
  intros Hreach. split; [|split].
  - intros v Hlast Hnz. rewrite <- (votes_latestCast s Hreach) in Hlast.
    rewrite (verifyVote_stored h s v Hlast Hnz).
    assert (isVerified v = true) as ->; [|done].
    rewrite (votes_latestCast s Hreach) in Hlast. clear -Hlast.
    induction (events s) as [|ev log IH]; [done|].
    destruct ev; simpl in Hlast; try (by apply IH).
    case_bool_decide; [by injection Hlast as <- | by apply IH].
  - intros Hnone. rewrite <- (votes_latestCast s Hreach) in Hnone.
    unfold verifyVote, voteAt. by rewrite Hnone.
  - intros eid pid cid tx s' Hok Hnz.
    assert (votes s' !! h
            = Some (voteOfCast eid pid cid (msg_sender tx) h
                      (block_timestamp tx))) as Hv.
    { inv_call Hok. simpl. by rewrite lookup_insert_eq. }
    by rewrite (verifyVote_stored h s' _ Hv Hnz).
Qed.

Lemma verifyVote_latest_cast_witness :
  verifyVote 170 afterSameHash = Ok ("E1", "P1", "C2", 11, 1020, true).
Proof.
  destruct (verifyVote_latest_cast afterSameHash 170 reachable_afterSameHash)
    as [Hlatest _].
  apply (Hlatest (voteOfCast "E1" "P1" "C2" 11 170 1020)).
  - vm_compute. reflexivity.
  - discriminate.
Defined.

(** C9, as stated, fails: the [castVote] of voter 10 for ["C1"] with hash
    [0xAA] at time 1010 returned, and after the [castVote] of voter 11 with
    the same hash [verifyVote 0xAA] returns the data of voter 11, not those
    of the first call. *)
Lemma verifyVote_first_cast_counterexample :
  reachable afterSameHash
  ∧ castVote "E1" "P1" "C1" 170 (txOf 10 1010) votingOpen = Ok afterFirstVote
  ∧ castVote "E1" "P1" "C2" 170 (txOf 11 1020) afterFirstVote
    = Ok afterSameHash
  ∧ verifyVote 170 afterSameHash = Ok ("E1", "P1", "C2", 11, 1020, true)
  ∧ verifyVote 170 afterSameHash ≠ Ok ("E1", "P1", "C1", 10, 1010, true).
Proof.
  split; [exact reachable_afterSameHash|].
  split; [vm_compute; reflexivity|].
  split; [vm_compute; reflexivity|].
  split; [vm_compute; reflexivity|].
  vm_compute. discriminate.
Qed.

(** ** The pause switch *)

(** The administrative calls read neither [paused] nor [status] and write
    neither. *)
Lemma administrative_ignores_pause (c : Call) (tx : Tx) (s : State) (b : bool) :
  isAdministrative c = true →
  exec c tx (set_paused b s) = mapResult (set_paused b) (exec c tx s).
Proof.
  intros Hadm. destruct c; try discriminate Hadm; unfold_calls; cbv zeta;
    unfold _grantRole, _revokeRole, hasRole, electionAt; simpl;
    repeat match goal with
    | |- context [require ?b _] => destruct b; simpl
    | |- context [if ?b then _ else _] => destruct b; simpl
    end; reflexivity.
Qed.

Lemma pause_inv (tx : Tx) (s s' : State) :
  pause tx s = Ok s' →
  hasRole DEFAULT_ADMIN_ROLE (msg_sender tx) s = true
  ∧ paused s = false ∧ paused s' = true.
Proof. intros Hok. inv_call Hok. done. Qed.

Lemma unpause_inv (tx : Tx) (s s' : State) :
  unpause tx s = Ok s' →
  hasRole DEFAULT_ADMIN_ROLE (msg_sender tx) s = true
  ∧ paused s = true ∧ paused s' = false.
Proof. intros Hok. inv_call Hok. done. Qed.

(** C10 (amended): while the system is paused every [castVote] reverts: with
    SystemPaused when the caller is a registered voter, with Unauthorized
    when the caller is not, because [onlyRegisteredVoter] runs before
    [whenNotPaused].  The pause flag has no effect on the administrative
    calls: each returns or reverts identically, and writes the same, whether
    or not the system is paused.  [pause] and [unpause] return only for a
    caller holding [DEFAULT_ADMIN_ROLE], a role distinct from
    [ELECTION_ADMIN_ROLE]: a caller without it is refused whatever other role
    it holds. *)
Theorem pause_switch (tx : Tx) (s : State) :
  (paused s = true →
   ∀ eid pid cid h,
     ∃ e, castVote eid pid cid h tx s = Revert e
          ∧ (msg_sender tx ∈ registeredVoters s → status s = NOT_ENTERED →
             spec_error e = Some SystemPaused)
          ∧ (msg_sender tx ∉ registeredVoters s →
             spec_error e = Some Unauthorized))
  ∧ (∀ c b, isAdministrative c = true →
            exec c tx (set_paused b s) = mapResult (set_paused b) (exec c tx s))
  ∧ (∀ s', pause tx s = Ok s' →
           hasRole DEFAULT_ADMIN_ROLE (msg_sender tx) s = true
           ∧ paused s' = true)
  ∧ (∀ s', unpause tx s = Ok s' →
           hasRole DEFAULT_ADMIN_ROLE (msg_sender tx) s = true
           ∧ paused s' = false)
  ∧ (hasRole DEFAULT_ADMIN_ROLE (msg_sender tx) s = false →
     pause tx s = Revert (MissingRole DEFAULT_ADMIN_ROLE)
     ∧ unpause tx s = Revert (MissingRole DEFAULT_ADMIN_ROLE))
  ∧ DEFAULT_ADMIN_ROLE ≠ ELECTION_ADMIN_ROLE.
Proof.
  split; [|split; [|split; [|split; [|split]]]].
  - intros Hpaused eid pid cid h.
    destruct (castVote eid pid cid h tx s) as [s'|e] eqn:Hcall.
    { inv_call Hcall. simpl in *. congruence. }
    exists e. split; [done|]. split.
    + intros Hreg Hst.
      destruct (castVote_fails_at eid pid cid h tx s
                  [CallerRegistered; NotReentered]
                  [ElectionExists; VotingOpen; NotYetVoted; CandidateActive;
                   HashNonZero] NotPaused)
        as (e' & Hrev & Herr); [reflexivity | | |].
      * constructor; [simpl; by apply bool_decide_eq_true_2|].
        constructor; [simpl; by rewrite Hst|]. constructor.
      * simpl. by rewrite Hpaused.
      * rewrite Hcall in Hrev. by injection Hrev as ->.
    + intros Hreg.
      destruct (castVote_fails_at eid pid cid h tx s []
                  [NotReentered; NotPaused; ElectionExists; VotingOpen;
                   NotYetVoted; CandidateActive; HashNonZero] CallerRegistered)
        as (e' & Hrev & Herr); [reflexivity | constructor | |].
      * simpl. by apply bool_decide_eq_false_2.
      * rewrite Hcall in Hrev. by injection Hrev as ->.
  - intros c b. apply administrative_ignores_pause.
  - intros s' Hok. by apply pause_inv in Hok as (? & ? & ?).
  - intros s' Hok. by apply unpause_inv in Hok as (? & ? & ?).
  - intros Hno. unfold pause, unpause, onlyRole. by rewrite Hno.
  - discriminate.
Qed.

Lemma pause_switch_witness :
  ∃ e, castVote "E1" "P1" "C1" 171 (txOf 10 1006) pausedWhileOpen = Revert e
       ∧ (10 ∈ registeredVoters pausedWhileOpen →
          status pausedWhileOpen = NOT_ENTERED →
          spec_error e = Some SystemPaused)
       ∧ (10 ∉ registeredVoters pausedWhileOpen →
          spec_error e = Some Unauthorized).
Proof.
  destruct (pause_switch (txOf 10 1006) pausedWhileOpen) as [Hcast _].
  apply (Hcast ltac:(vm_compute; reflexivity) "E1" "P1" "C1" 171).
Defined.

(** C10, as stated, fails: with the system paused while ["E1"] is open, the
    [castVote] of account 99, which is not registered, reverts with "Caller
    is not a registered voter" (Unauthorized), not with SystemPaused. *)
Lemma paused_castVote_unregistered_counterexample :
  reachable pausedWhileOpen
  ∧ paused pausedWhileOpen = true
  ∧ castVote "E1" "P1" "C1" 187 (txOf 99 1006) pausedWhileOpen
    = Revert NotRegisteredVoter
  ∧ spec_error NotRegisteredVoter ≠ Some SystemPaused.
Proof.
  split; [exact reachable_pausedWhileOpen|].
  split; [vm_compute; reflexivity|].
  split; [vm_compute; reflexivity|].
  discriminate.
Qed.

(** ** The flags of an election *)

(** What one transaction can do to the flags of an existing election. *)
Lemma transact_flags (c : Call) (tx : Tx) (s : State) (eid : string) :
  eid ∈ electionExists s →
  eid ∈ electionExists (transact c tx s)
  ∧ (resultsPublished (electionAt s eid) = true →
     resultsPublished (electionAt (transact c tx s) eid) = true)
  ∧ (isActive (electionAt s eid) = false →
     isActive (electionAt (transact c tx s) eid) = true →
     c = StartElection eid)
  ∧ (isActive (electionAt s eid) = true →
     isActive (electionAt (transact c tx s) eid) = false →
     c = EndElection eid).
Proof.
  intros Hex. unfold transact.
  destruct (exec c tx s) as [s'|] eqn:Hc.
  2: { repeat split; [done | done | congruence | congruence]. }
  destruct c; inv_call Hc; split_roles; unfold_storage;
    (split; [set_solver|]); case_lookup;
    repeat split; try done; try congruence.
Qed.

Lemma endElection_inv (eid : string) (tx : Tx) (s s' : State) :
  endElection eid tx s = Ok s' →
  isActive (electionAt s eid) = true
  ∧ s' = emit (ElectionEnded eid)
           (store_election eid (set_isActive false (electionAt s eid)) s).
Proof. intros Hok. inv_call Hok. done. Qed.

(** C3 (amended): the code keeps two flags per election, [isActive] and
    [resultsPublished], and no separate Ended state.  Existence and
    [resultsPublished] are monotonic: no transaction undoes them.
    [isActive] is set only by [startElection] and cleared only by
    [endElection].  After [endElection] has returned, a [startElection] by an
    administrator returns again as soon as its own guards hold (the start
    time is reached and the election has a position), and the election is
    active again. *)
Theorem election_flags (c : Call) (tx : Tx) (s : State) (eid : string) :
  eid ∈ electionExists s →
  eid ∈ electionExists (transact c tx s)
  ∧ (resultsPublished (electionAt s eid) = true →
     resultsPublished (electionAt (transact c tx s) eid) = true)
  ∧ (isActive (electionAt s eid) = false →
     isActive (electionAt (transact c tx s) eid) = true →
     c = StartElection eid)
  ∧ (isActive (electionAt s eid) = true →
     isActive (electionAt (transact c tx s) eid) = false →
     c = EndElection eid)
  ∧ (∀ tx1 tx2 s1,
       endElection eid tx1 s = Ok s1 →
       hasRole ELECTION_ADMIN_ROLE (msg_sender tx2) s1 = true →
       startTime (electionAt s eid) ≤ block_timestamp tx2 →
       positionIds (electionAt s eid) ≠ [] →
       ∃ s2, startElection eid tx2 s1 = Ok s2
             ∧ isActive (electionAt s2 eid) = true).
Proof.
  intros Hex.
  destruct (transact_flags c tx s eid Hex) as (H1 & H2 & H3 & H4).
  repeat (split; [assumption|]).
  intros tx1 tx2 s1 Hend Hadmin Htime Hpos.
  apply endElection_inv in Hend as [Hact ->].
  unfold startElection, onlyElectionAdmin, electionMustExist. cbv zeta.
  rewrite Hadmin. simpl.
  rewrite (bool_decide_eq_true_2 _ Hex). simpl.
  change (electionAt (emit ?ev ?st) ?e) with (electionAt st e).
  rewrite electionAt_store. destruct (decide (eid = eid)); [|done]. simpl.
  apply N.leb_le in Htime. rewrite Htime. simpl.
  destruct (positionIds (electionAt s eid)) as [|p ps]; [done|]. simpl.
  eexists. split; [reflexivity|].
  change (electionAt (emit ?ev ?st) ?e) with (electionAt st e).
  rewrite electionAt_store. by destruct (decide (eid = eid)).
Qed.

Lemma election_flags_witness :
  ∃ s2, startElection "E1" (txOf 1 2100) afterEnd = Ok s2
        ∧ isActive (electionAt s2 "E1") = true.
Proof.
  assert ("E1" ∈ electionExists afterFirstVote) as Hex.
  { apply (bool_decide_eq_true_1 ("E1" ∈ electionExists afterFirstVote)).
    vm_compute. reflexivity. }
  destruct (election_flags (EndElection "E1") (txOf 1 2000) afterFirstVote "E1"
              Hex) as (_ & _ & _ & _ & Hrestart).
  apply (Hrestart (txOf 1 2000) (txOf 1 2100) afterEnd).
  - vm_compute. reflexivity.
  - vm_compute. reflexivity.
  - vm_compute. discriminate.
  - vm_compute. discriminate.
Defined.

(** C3, as stated, fails: [endElection] has returned for ["E1"] at time
    2000, and a [startElection] at time 2100 returns and makes ["E1"] active
    again; the same holds after the results have been published. *)
Lemma restart_after_end_counterexample :
  reachable afterFirstVote
  ∧ endElection "E1" (txOf 1 2000) afterFirstVote = Ok afterEnd
  ∧ isActive (electionAt afterEnd "E1") = false
  ∧ match startElection "E1" (txOf 1 2100) afterEnd with
    | Ok s => isActive (electionAt s "E1") = true
    | Revert _ => False
    end
  ∧ publishResults "E1" (txOf 1 2010) afterEnd = Ok afterPublish
  ∧ match startElection "E1" (txOf 1 2100) afterPublish with
    | Ok s => isActive (electionAt s "E1") = true
              ∧ resultsPublished (electionAt s "E1") = true
    | Revert _ => False
    end.
Proof.
  split; [exact reachable_afterFirstVote|].
  split; [vm_compute; reflexivity|].
  split; [vm_compute; reflexivity|].
  split; [vm_compute; reflexivity|].
  split; [vm_compute; reflexivity|].
  vm_compute. split; reflexivity.
Qed.

(** ** Publishing results *)

(** C5 (amended): for an administrator and an existing election,
    [publishResults] reverts with ElectionStillActive whenever the election
    is active, and with AlreadyPublished when it is not active and its
    results are already published (so on a second call).  For an election
    that has been ended ([endElection] has returned for it and it is not
    active) and whose results are not yet published it returns: it sets
    [resultsPublished] and leaves [isActive], the positions and tallies of
    every election, and the vote records as they were.  The call does not
    freeze the tallies, which a later [startElection] and [castVote] still
    change. *)
Theorem publishResults_guards (eid : string) (tx : Tx) (s : State) :
  hasRole ELECTION_ADMIN_ROLE (msg_sender tx) s = true →
  eid ∈ electionExists s →
  (isActive (electionAt s eid) = true →
   publishResults eid tx s = Revert MustBeEndedFirst
   ∧ spec_error MustBeEndedFirst = Some ElectionStillActive
   ∧ transact (PublishResults eid) tx s = s)
  ∧ (isActive (electionAt s eid) = false →
     resultsPublished (electionAt s eid) = true →
     publishResults eid tx s = Revert ResultsAlreadyPublished
     ∧ spec_error ResultsAlreadyPublished = Some AlreadyPublished
     ∧ transact (PublishResults eid) tx s = s)
  ∧ (endedInLog eid (events s) = true →
     isActive (electionAt s eid) = false →
     resultsPublished (electionAt s eid) = false →
     ∃ s', publishResults eid tx s = Ok s'
           ∧ resultsPublished (electionAt s' eid) = true
           ∧ isActive (electionAt s' eid) = false
           ∧ votes s' = votes s
           ∧ (∀ eid', totalVotes (electionAt s' eid')
                      = totalVotes (electionAt s eid')
                      ∧ positions (electionAt s' eid')
                        = positions (electionAt s eid'))
           ∧ publishResults eid tx s' = Revert ResultsAlreadyPublished).
Proof.
  intros Hadmin Hex.
  unfold transact, exec.
  unfold publishResults, onlyElectionAdmin, electionMustExist. cbv zeta.
  rewrite Hadmin, (bool_decide_eq_true_2 _ Hex). simpl.
  split; [|split].
  - intros ->. done.
  - intros -> ->. done.
  - intros _ Hact Hpub. rewrite Hact, Hpub. simpl.
    eexists. split; [reflexivity|].
    change (electionAt (emit ?ev ?st) ?e) with (electionAt st e).
    rewrite !electionAt_store. destruct (decide (eid = eid)); [|done]. simpl.
    repeat (split; [done|]). split.
    + intros eid'. rewrite electionAt_store.
      by destruct (decide (eid = eid')) as [<-|].
    + change (hasRole ?r ?a (emit ?ev (store_election ?i ?e ?st)))
        with (hasRole r a st).
      rewrite Hadmin. simpl. rewrite (bool_decide_eq_true_2 _ Hex). simpl.
      by rewrite Hact.
Qed.

Lemma publishResults_guards_witness :
  ∃ s', publishResults "E1" (txOf 1 2010) afterEnd = Ok s'
        ∧ resultsPublished (electionAt s' "E1") = true
        ∧ isActive (electionAt s' "E1") = false
        ∧ votes s' = votes afterEnd
        ∧ (∀ eid', totalVotes (electionAt s' eid')
                   = totalVotes (electionAt afterEnd eid')
                   ∧ positions (electionAt s' eid')
                     = positions (electionAt afterEnd eid'))
        ∧ publishResults "E1" (txOf 1 2010) s'
          = Revert ResultsAlreadyPublished.
Proof.
  assert ("E1" ∈ electionExists afterEnd) as Hex.
  { apply (bool_decide_eq_true_1 ("E1" ∈ electionExists afterEnd)).
    vm_compute. reflexivity. }
  destruct (publishResults_guards "E1" (txOf 1 2010) afterEnd
              ltac:(vm_compute; reflexivity) Hex) as (_ & _ & Hended).
  apply Hended.
  - vm_compute. reflexivity.
  - vm_compute. reflexivity.
  - vm_compute. reflexivity.
Defined.

(** C5, as stated, fails: the results of ["E1"] are published with a total
    of one vote and no vote for ["C2"]; the tallies are not final, for
    after a [startElection] and a [castVote] of voter 11 the results are
    still published, the total is two and ["C2"] has one vote. *)
Lemma tallies_change_after_publish_counterexample :
  reachable votedAfterPublish
  ∧ publishResults "E1" (txOf 1 2010) afterEnd = Ok afterPublish
  ∧ resultsPublished (electionAt afterPublish "E1") = true
  ∧ totalVotes (electionAt afterPublish "E1") = 1
  ∧ voteCount (candidateAt (positionAt (electionAt afterPublish "E1") "P1")
                 "C2") = 0
  ∧ resultsPublished (electionAt votedAfterPublish "E1") = true
  ∧ totalVotes (electionAt votedAfterPublish "E1") = 2
  ∧ voteCount
      (candidateAt (positionAt (electionAt votedAfterPublish "E1") "P1") "C2")
    = 1.
Proof.
  split; [apply reachable_transactAll, reachable_afterPublish|].
  split; [vm_compute; reflexivity|].
  split; [vm_compute; reflexivity|].
  split; [vm_compute; reflexivity|].
  split; [vm_compute; reflexivity|].
  split; [vm_compute; reflexivity|].
  split; vm_compute; reflexivity.
Qed.

(** The guard of [publishResults] is "not active", which an election that
    was created and never started also satisfies: ["E1"] was configured and
    never started (its log has no [ElectionStarted]), and [publishResults]
    returns and sets [resultsPublished], against the message of the guard,
    "Election must be ended first". *)
Lemma publish_never_started :
  reachable neverStarted
  ∧ (∀ ev, ev ∈ events neverStarted → ev ≠ ElectionStarted "E1")
  ∧ match publishResults "E1" (txOf 1 950) neverStarted with
    | Ok s => resultsPublished (electionAt s "E1") = true
    | Revert _ => False
    end.
Proof.
  split; [exact reachable_neverStarted|]. split.
  - assert (events neverStarted
            = [CandidateRegistered "E1" "P1" "C2" "Bob" 22;
               CandidateRegistered "E1" "P1" "C1" "Ada" 21;
               PositionAdded "E1" "P1" "President" 1;
               ElectionCreated "E1" "General" 1 1000 4600;
               RoleGranted ELECTION_ADMIN_ROLE 1 1;
               RoleGranted DEFAULT_ADMIN_ROLE 1 1]) as ->
      by (vm_compute; reflexivity).
    intros ev Hin. repeat (apply elem_of_cons in Hin as [->|Hin]; [done|]).
    by apply elem_of_nil in Hin.
  - vm_compute. reflexivity.
Qed.

(** ** Configuring an election *)

(** C6 (amended): the guard of [addPosition] and [registerCandidate] is "the
    election is not active".  For an administrator and an existing election:
    while the election is active both revert with ElectionNotEditable and
    change nothing; while it is not active (never started, ended, or
    published) [addPosition] returns exactly when [maxVotesPerVoter ≥ 1] and
    [availableSeats ≥ 1], and [registerCandidate] exactly when the candidate
    address is not zero. *)
Theorem configuration_guards (eid : string) (tx : Tx) (s : State) :
  hasRole ELECTION_ADMIN_ROLE (msg_sender tx) s = true →
  eid ∈ electionExists s →
  (isActive (electionAt s eid) = true →
   ∀ pid cid ttl descr maxVotes seats nm pty mfs addr,
     addPosition eid pid ttl descr maxVotes seats tx s
     = Revert CannotModifyActive
     ∧ registerCandidate eid pid cid nm pty mfs addr tx s
       = Revert CannotModifyActive
     ∧ spec_error CannotModifyActive = Some ElectionNotEditable
     ∧ transact (AddPosition eid pid ttl descr maxVotes seats) tx s = s
     ∧ transact (RegisterCandidate eid pid cid nm pty mfs addr) tx s = s)
  ∧ (isActive (electionAt s eid) = false →
     ∀ pid ttl descr maxVotes seats,
       (∃ s', addPosition eid pid ttl descr maxVotes seats tx s = Ok s')
       ↔ 1 ≤ maxVotes ∧ 1 ≤ seats)
  ∧ (isActive (electionAt s eid) = false →
     ∀ pid cid nm pty mfs addr,
       (∃ s', registerCandidate eid pid cid nm pty mfs addr tx s = Ok s')
       ↔ addr ≠ 0).
Proof.
  intros Hadmin Hex. split; [|split].
  - intros Hact pid cid ttl descr maxVotes seats nm pty mfs addr.
    assert (addPosition eid pid ttl descr maxVotes seats tx s
            = Revert CannotModifyActive) as Hadd.
    { unfold addPosition, onlyElectionAdmin, electionMustExist.
      by rewrite Hadmin, (bool_decide_eq_true_2 _ Hex), Hact. }
    assert (registerCandidate eid pid cid nm pty mfs addr tx s
            = Revert CannotModifyActive) as Hreg.
    { unfold registerCandidate, onlyElectionAdmin, electionMustExist.
      by rewrite Hadmin, (bool_decide_eq_true_2 _ Hex), Hact. }
    repeat split; try done.
    + by apply (transact_revert _ _ _ CannotModifyActive).
    + by apply (transact_revert _ _ _ CannotModifyActive).
  - intros Hact pid ttl descr maxVotes seats.
    unfold addPosition, onlyElectionAdmin, electionMustExist. cbv zeta.
    rewrite Hadmin, (bool_decide_eq_true_2 _ Hex), Hact. simpl.
    destruct (N.ltb_spec 0 maxVotes); simpl;
      [destruct (N.ltb_spec 0 seats); simpl|].
    + split; [intros _; lia | eauto].
    + split; [intros [? [=]] | lia].
    + split; [intros [? [=]] | lia].
  - intros Hact pid cid nm pty mfs addr.
    unfold registerCandidate, onlyElectionAdmin, electionMustExist. cbv zeta.
    rewrite Hadmin, (bool_decide_eq_true_2 _ Hex), Hact. simpl.
    destruct (N.eqb_spec addr 0); simpl.
    + split; [intros [? [=]] | done].
    + split; [done | eauto].
Qed.

Lemma configuration_guards_witness :
  addPosition "E1" "P2" "Deputy" "Second seat" 1 1 (txOf 1 1500) afterFirstVote
  = Revert CannotModifyActive
  ∧ registerCandidate "E1" "P2" "C3" "Cy" "Green" "m3" 23 (txOf 1 1500)
      afterFirstVote
    = Revert CannotModifyActive
  ∧ spec_error CannotModifyActive = Some ElectionNotEditable
  ∧ transact (AddPosition "E1" "P2" "Deputy" "Second seat" 1 1) (txOf 1 1500)
      afterFirstVote = afterFirstVote
  ∧ transact (RegisterCandidate "E1" "P2" "C3" "Cy" "Green" "m3" 23)
      (txOf 1 1500) afterFirstVote = afterFirstVote.
Proof.
  assert ("E1" ∈ electionExists afterFirstVote) as Hex.
  { apply (bool_decide_eq_true_1 ("E1" ∈ electionExists afterFirstVote)).
    vm_compute. reflexivity. }
  destruct (configuration_guards "E1" (txOf 1 1500) afterFirstVote
              ltac:(vm_compute; reflexivity) Hex) as [Hactive _].
  apply (Hactive ltac:(vm_compute; reflexivity) "P2" "C3" "Deputy"
           "Second seat" 1 1 "Cy" "Green" "m3" 23).
Defined.

(** C6, as stated, fails: ["E1"] has been ended and its results published,
    and [addPosition] and [registerCandidate] on it return. *)
Lemma edit_after_publish_counterexample :
  reachable afterPublish
  ∧ resultsPublished (electionAt afterPublish "E1") = true
  ∧ match addPosition "E1" "P2" "Deputy" "Second seat" 1 1 (txOf 1 2020)
            afterPublish with
    | Ok s => positionIds (electionAt s "E1") = ["P1"; "P2"]
    | Revert _ => False
    end
  ∧ match registerCandidate "E1" "P1" "C3" "Cy" "Green" "m3" 23 (txOf 1 2020)
            afterPublish with
    | Ok s => candidateIds (positionAt (electionAt s "E1") "P1")
              = ["C1"; "C2"; "C3"]
    | Revert _ => False
    end.
Proof.
  split; [exact reachable_afterPublish|].
  split; [vm_compute; reflexivity|].
  split; vm_compute; reflexivity.
Qed.

(** ** Identifiers *)

(** C8 (code at the failing input): [addPosition] with a position id the
    election already has returns, overwrites the stored position and pushes
    the id a second time; [registerCandidate] with a candidate id the
    position already has returns and pushes the id a second time, and on an
    ended election it resets the vote count of a candidate who has a stored
    vote. *)
Lemma duplicate_ids_accepted :
  match addPosition "E1" "P1" "Deputy" "Again" 2 3 (txOf 1 950) neverStarted
  with
  | Ok s =>
      positionIds (electionAt s "E1") = ["P1"; "P1"]
      ∧ positionTitle (positionAt (electionAt s "E1") "P1") = "Deputy"
  | Revert _ => False
  end
  ∧ match registerCandidate "E1" "P1" "C1" "Eve" "Grey" "m" 29 (txOf 1 2005)
            afterEnd with
    | Ok s =>
        candidateIds (positionAt (electionAt s "E1") "P1") = ["C1"; "C2"; "C1"]
        ∧ voteCount (candidateAt (positionAt (electionAt afterEnd "E1") "P1")
                       "C1") = 1
        ∧ voteCount (candidateAt (positionAt (electionAt s "E1") "P1") "C1") = 0
        ∧ storedVotesOfCandidate "E1" "P1" "C1" s = 1
    | Revert _ => False
    end.
Proof.
  split; vm_compute; split; try split; try split; reflexivity.
Qed.

(** ** Tallies *)

(** Storing a record under a hash adds at most one record to those a
    predicate selects, and none when the record is not selected. *)
Lemma size_filter_insert (P : N * Vote → Prop) `{∀ kv, Decision (P kv)}
  (m : gmap N Vote) (h : N) (v : Vote) :
  (size (filter P (<[h := v]> m))
   ≤ size (filter P m) + (if decide (P (h, v)) then 1 else 0))%nat.
Proof.
  destruct (decide (P (h, v))) as [HP|HP].
  - rewrite map_filter_insert_True by done.
    rewrite map_size_insert. destruct (filter P m !! h); simpl; lia.
  - rewrite map_filter_insert_False by done.
    rewrite map_filter_delete.
    rewrite map_size_delete. destruct (filter P m !! h); simpl; lia.
Qed.

(** The stored records of an election are at most as many as the successful
    [castVote] calls for it. *)
Lemma stored_le_casts_election (s : State) :
  reachable s →
  ∀ eid, storedVotesOfElection eid s ≤ castsOfElection eid (events s).
Proof.
  unfold storedVotesOfElection.
  intros Hreach. reachable_induction Hreach; intros eid';
    split_roles; simpl; try (by apply IH); try done.
  - specialize (IH eid').
    pose proof (size_filter_insert
                  (λ kv : N * Vote, voteElectionId kv.2 = eid') (votes s0) hash
                  {| voteElectionId := eid; votePositionId := pid;
                     voteCandidateId := cid; voter := msg_sender tx;
                     timestamp := block_timestamp tx; voteHash := hash;
                     isVerified := true |}) as Hle.
    simpl in Hle. destruct (decide (eid = eid')) as [Heq|Hne].
    + rewrite (bool_decide_eq_true_2 _ Heq). lia.
    + rewrite (bool_decide_eq_false_2 _ Hne). lia.
Qed.

Lemma stored_le_casts_candidate (s : State) :
  reachable s →
  ∀ eid pid cid,
    storedVotesOfCandidate eid pid cid s
    ≤ castsOfCandidate eid pid cid (events s).
Proof.
  unfold storedVotesOfCandidate.
  intros Hreach. reachable_induction Hreach; intros eid' pid' cid';
    split_roles; simpl; try (by apply IH); try done.
  - specialize (IH eid' pid' cid').
    pose proof (size_filter_insert
                  (λ kv : N * Vote,
                     voteElectionId kv.2 = eid' ∧ votePositionId kv.2 = pid'
                     ∧ voteCandidateId kv.2 = cid') (votes s0) hash
                  {| voteElectionId := eid; votePositionId := pid;
                     voteCandidateId := cid; voter := msg_sender tx;
                     timestamp := block_timestamp tx; voteHash := hash;
                     isVerified := true |}) as Hle.
    simpl in Hle.
    destruct (decide (eid = eid' ∧ pid = pid' ∧ cid = cid')) as [Heq|Hne].
    + rewrite (bool_decide_eq_true_2 _ Heq). lia.
    + rewrite (bool_decide_eq_false_2 _ Hne). lia.
Qed.

(** C4, as stated, fails: after voters 10 and 11 have both cast hash [0xAA]
    in ["E1"], [totalVotes] is 2 and one record is stored for ["E1"]; the
    vote count of ["C1"] is 1 and no stored record refers to ["C1"]. *)
Lemma tallies_stored_records_counterexample :
  reachable afterSameHash
  ∧ totalVotes (electionAt afterSameHash "E1") = 2
  ∧ storedVotesOfElection "E1" afterSameHash = 1
  ∧ voteCount (candidateAt (positionAt (electionAt afterSameHash "E1") "P1")
                 "C1") = 1
  ∧ storedVotesOfCandidate "E1" "P1" "C1" afterSameHash = 0.
Proof.
  split; [exact reachable_afterSameHash|].
  split; [vm_compute; reflexivity|].
  split; [vm_compute; reflexivity|].
  split; vm_compute; reflexivity.
Qed.

(** * Further properties of the contract *)

(** ** The re-entrancy status *)

(** X1: between transactions the re-entrancy guard is released, so no
    [castVote] on a reachable storage reverts as a re-entrant call. *)
Theorem status_released (s : State) (eid pid cid : string) (h : N) (tx : Tx) :
  reachable s →
  status s = NOT_ENTERED
  ∧ castVote eid pid cid h tx s ≠ Revert ReentrantCall.
Proof.
  intros Hreach.
  assert (status s = NOT_ENTERED) as Hst.
  { clear eid pid cid h tx.
    reachable_induction Hreach; split_roles; simpl in *; done. }
  split; [exact Hst|].
  unfold_calls. unfold increment. cbv zeta. rewrite Hst. simpl.
  repeat match goal with
  | |- context [require ?b _] => destruct b eqn:?; simpl
  | |- context [if ?b then _ else _] => destruct b eqn:?; simpl
  end; discriminate.
Qed.

Lemma status_released_witness :
  status afterSameHash = NOT_ENTERED
  ∧ castVote "E1" "P1" "C1" 200 (txOf 10 1100) afterSameHash
    ≠ Revert ReentrantCall.
Proof.
  exact (status_released afterSameHash "E1" "P1" "C1" 200 (txOf 10 1100)
           reachable_afterSameHash).
Defined.

(** ** Who may administer *)

(** X2: every administrative function refuses a caller who does not hold
    [ELECTION_ADMIN_ROLE], before looking at anything else, and the storage
    is unchanged. *)
Theorem administrative_requires_admin (c : Call) (tx : Tx) (s : State) :
  isAdministrative c = true →
  hasRole ELECTION_ADMIN_ROLE (msg_sender tx) s = false →
  exec c tx s = Revert NotElectionAdmin
  ∧ spec_error NotElectionAdmin = Some Unauthorized
  ∧ transact c tx s = s.
Proof.
  intros Hadm Hno.
  assert (exec c tx s = Revert NotElectionAdmin) as Hrev.
  { destruct c; try discriminate Hadm; unfold_calls; by rewrite Hno. }
  split; [exact Hrev|]. split; [reflexivity|].
  by apply (transact_revert _ _ _ NotElectionAdmin).
Qed.

Lemma administrative_requires_admin_witness :
  exec (EndElection "E1") (txOf 10 1100) afterFirstVote
  = Revert NotElectionAdmin
  ∧ spec_error NotElectionAdmin = Some Unauthorized
  ∧ transact (EndElection "E1") (txOf 10 1100) afterFirstVote
    = afterFirstVote.
Proof.
  apply (administrative_requires_admin (EndElection "E1") (txOf 10 1100)
           afterFirstVote).
  - reflexivity.
  - vm_compute. reflexivity.
Defined.

(** ** Vote records are written by [castVote] alone *)

(** X3: no call other than [castVote] changes the vote records, the
    [hasVoted] index or the list of vote hashes, so [verifyVote] and
    [hasVoterVoted] answer after it as before. *)
Theorem only_castVote_writes_votes (c : Call) (tx : Tx) (s : State) :
  isCastVote c = false →
  votes (transact c tx s) = votes s
  ∧ hasVoted (transact c tx s) = hasVoted s
  ∧ voteHashes (transact c tx s) = voteHashes s
  ∧ (∀ h, verifyVote h (transact c tx s) = verifyVote h s)
  ∧ (∀ who eid pid,
       hasVoterVoted who eid pid (transact c tx s)
       = hasVoterVoted who eid pid s).
Proof.
  intros Hc.
  assert (votes (transact c tx s) = votes s
          ∧ hasVoted (transact c tx s) = hasVoted s
          ∧ voteHashes (transact c tx s) = voteHashes s) as (Hv & Hh & Hl).
  { unfold transact. destruct (exec c tx s) as [s'|] eqn:Hcall; [|done].
    destruct c; try discriminate Hc; inv_call Hcall; split_roles; done. }
  repeat (split; [assumption|]). split.
  - intros h. unfold verifyVote, voteAt. by rewrite Hv.
  - intros who eid pid. unfold hasVoterVoted. by rewrite Hh.
Qed.

Lemma only_castVote_writes_votes_witness :
  votes (transact (RevokeVoter 10) (txOf 1 1100) afterFirstVote)
  = votes afterFirstVote
  ∧ hasVoted (transact (RevokeVoter 10) (txOf 1 1100) afterFirstVote)
    = hasVoted afterFirstVote
  ∧ voteHashes (transact (RevokeVoter 10) (txOf 1 1100) afterFirstVote)
    = voteHashes afterFirstVote
  ∧ (∀ h, verifyVote h (transact (RevokeVoter 10) (txOf 1 1100) afterFirstVote)
          = verifyVote h afterFirstVote)
  ∧ (∀ who eid pid,
       hasVoterVoted who eid pid
         (transact (RevokeVoter 10) (txOf 1 1100) afterFirstVote)
       = hasVoterVoted who eid pid afterFirstVote).
Proof.
  apply (only_castVote_writes_votes (RevokeVoter 10) (txOf 1 1100)
           afterFirstVote).
  reflexivity.
Defined.

(** ** A vote once cast stays cast *)

Lemma hasVoted_grows (c : Call) (tx : Tx) (s : State) :
  hasVoted s ⊆ hasVoted (transact c tx s).
Proof.
  unfold transact. destruct (exec c tx s) as [s'|] eqn:Hcall; [|done].
  destruct c; inv_call Hcall; split_roles; simpl; set_solver.
Qed.

Lemma hasVoted_grows_all (txs : list (Call * Tx)) (s : State) :
  hasVoted s ⊆ hasVoted (transactAll txs s).
Proof.
  revert s. induction txs as [|[c tx] txs IH]; intros s; simpl; [done|].
  etrans; [apply (hasVoted_grows c tx)|apply IH].
Qed.

(** X4: no sequence of transactions clears a mark of the [hasVoted] index.
    In particular revoking and registering the voter again does not let the
    voter vote a second time for the position: every later [castVote] of the
    voter for it reverts. *)
Theorem vote_mark_persists (s : State) (who : N) (eid pid : string)
  (txs : list (Call * Tx)) :
  hasVoterVoted who eid pid s = true →
  hasVoterVoted who eid pid (transactAll txs s) = true
  ∧ (∀ cid h now,
       ∃ e, castVote eid pid cid h (txOf who now) (transactAll txs s)
            = Revert e).
Proof.
  unfold hasVoterVoted. intros Hv. apply bool_decide_eq_true_1 in Hv.
  assert ((who, eid, pid) ∈ hasVoted (transactAll txs s)) as Hlater.
  { by apply (hasVoted_grows_all txs s). }
  split; [by apply bool_decide_eq_true_2|].
  intros cid h now.
  destruct (castVote eid pid cid h (txOf who now) (transactAll txs s))
    as [s'|e] eqn:Hcall; [|by exists e].
  apply castVote_marks in Hcall as [Hnot _]. done.
Qed.

Lemma vote_mark_persists_witness :
  hasVoterVoted 10 "E1" "P1"
    (transactAll [(RevokeVoter 10, txOf 1 1100); (RegisterVoter 10, txOf 1 1200)]
       afterFirstVote) = true
  ∧ (∀ cid h now,
       ∃ e, castVote "E1" "P1" cid h (txOf 10 now)
              (transactAll
                 [(RevokeVoter 10, txOf 1 1100); (RegisterVoter 10, txOf 1 1200)]
                 afterFirstVote)
            = Revert e).
Proof.
  apply (vote_mark_persists afterFirstVote 10 "E1" "P1"
           [(RevokeVoter 10, txOf 1 1100); (RegisterVoter 10, txOf 1 1200)]).
  vm_compute. reflexivity.
Defined.

(** ** Registering and revoking voters *)


(** X5: for an administrator, [registerVoter] returns exactly for an account
    that is not registered and [revokeVoter] exactly for one that is; the
    redundant call reverts with AlreadyRegistered, respectively
    NotRegistered.  Registering sets the registration and grants
    [VOTER_ROLE], revoking clears both, no other account's registration
    changes, and registering then revoking leaves the set of registered
    voters as it was. *)
Theorem voter_registration (who : N) (tx : Tx) (s : State) :
  hasRole ELECTION_ADMIN_ROLE (msg_sender tx) s = true →
  (who ∈ registeredVoters s →
   registerVoter who tx s = Revert VoterAlreadyRegistered
   ∧ spec_error VoterAlreadyRegistered = Some AlreadyRegistered
   ∧ ∃ s', revokeVoter who tx s = Ok s'
           ∧ (who ∉ registeredVoters s')
           ∧ hasRole VOTER_ROLE who s' = false
           ∧ (∀ a, a ≠ who →
                   (a ∈ registeredVoters s' ↔ a ∈ registeredVoters s)))
  ∧ (who ∉ registeredVoters s →
     revokeVoter who tx s = Revert VoterNotRegistered
     ∧ spec_error VoterNotRegistered = Some NotRegistered
     ∧ ∃ s', registerVoter who tx s = Ok s'
             ∧ who ∈ registeredVoters s'
             ∧ hasRole VOTER_ROLE who s' = true
             ∧ (∀ a, a ≠ who →
                     (a ∈ registeredVoters s' ↔ a ∈ registeredVoters s))
             ∧ registeredVoters (transact (RevokeVoter who) tx s')
               = registeredVoters s).
Proof.
  intros Hadmin. split.
  - intros Hreg.
    unfold registerVoter, revokeVoter, onlyElectionAdmin. cbv zeta.
    rewrite Hadmin, (bool_decide_eq_true_2 _ Hreg). simpl.
    split; [done|]. split; [done|].
    eexists. split; [reflexivity|].
    unfold _revokeRole, hasRole. simpl.
    case_bool_decide; simpl.
    + split; [set_solver|]. split; [|set_solver].
      apply bool_decide_eq_false_2. set_solver.
    + split; [set_solver|]. split; [|set_solver].
      by apply bool_decide_eq_false_2.
  - intros Hreg.
    unfold transact, exec.
    unfold registerVoter, revokeVoter, onlyElectionAdmin. cbv zeta.
    rewrite Hadmin, (bool_decide_eq_false_2 _ Hreg). simpl.
    split; [done|]. split; [done|].
    eexists. split; [reflexivity|].
    assert (∀ X : gset N, who ∉ X → ({[who]} ∪ X) ∖ {[who]} = X) as Hback
      by set_solver.
    unfold _grantRole, _revokeRole, hasRole in *. simpl.
    destruct (bool_decide ((VOTER_ROLE, who) ∈ roles s)) eqn:Hrole; simpl.
    + split; [set_solver|]. split; [exact Hrole|].
      split; [set_solver|].
      rewrite Hadmin. simpl.
      rewrite bool_decide_eq_true_2 by set_solver. simpl.
      rewrite Hrole. simpl. by apply Hback.
    + split; [set_solver|].
      split; [apply bool_decide_eq_true_2; set_solver|].
      split; [set_solver|].
      apply bool_decide_eq_true_1 in Hadmin.
      rewrite (bool_decide_eq_true_2
                 ((ELECTION_ADMIN_ROLE, msg_sender tx)
                  ∈ {[(VOTER_ROLE, who)]} ∪ roles s)) by set_solver.
      simpl. rewrite bool_decide_eq_true_2 by set_solver. simpl.
      rewrite (bool_decide_eq_true_2
                 ((VOTER_ROLE, who) ∈ {[(VOTER_ROLE, who)]} ∪ roles s))
        by set_solver.
      simpl. by apply Hback.
Qed.

Lemma voter_registration_witness :
  revokeVoter 12 (txOf 1 1100) afterFirstVote = Revert VoterNotRegistered
  ∧ spec_error VoterNotRegistered = Some NotRegistered
  ∧ ∃ s', registerVoter 12 (txOf 1 1100) afterFirstVote = Ok s'
          ∧ 12 ∈ registeredVoters s'
          ∧ hasRole VOTER_ROLE 12 s' = true
          ∧ (∀ a, a ≠ 12 →
                  (a ∈ registeredVoters s' ↔ a ∈ registeredVoters afterFirstVote))
          ∧ registeredVoters (transact (RevokeVoter 12) (txOf 1 1100) s')
            = registeredVoters afterFirstVote.
Proof.
  destruct (voter_registration 12 (txOf 1 1100) afterFirstVote
              ltac:(vm_compute; reflexivity)) as [_ Hnew].
  apply Hnew.
  intros Hin.
  apply (bool_decide_eq_true_2 (12 ∈ registeredVoters afterFirstVote)) in Hin.
  vm_compute in Hin. discriminate Hin.
Defined.

(** ** Creating elections *)

(** X6: for an administrator [createElection] checks, in this order, that the
    id is unused (else DuplicateElection), that [startTime < endTime] and
    that [endTime] is in the future (else InvalidTimeRange); a start time in
    the past is accepted.  When it returns, [getElection] gives back the
    arguments and the caller with both flags cleared and no votes, the new
    election has no position, the election count has grown by one and every
    other election is as before. *)
Theorem createElection_guards (eid ttl descr : string) (start_ end_ : N)
  (tx : Tx) (s : State) :
  reachable s →
  hasRole ELECTION_ADMIN_ROLE (msg_sender tx) s = true →
  (eid ∈ electionExists s →
   createElection eid ttl descr start_ end_ tx s = Revert ElectionAlreadyExists
   ∧ spec_error ElectionAlreadyExists = Some DuplicateElection)
  ∧ (eid ∉ electionExists s → end_ ≤ start_ →
     createElection eid ttl descr start_ end_ tx s = Revert StartNotBeforeEnd
     ∧ spec_error StartNotBeforeEnd = Some InvalidTimeRange)
  ∧ (eid ∉ electionExists s → start_ < end_ → end_ ≤ block_timestamp tx →
     createElection eid ttl descr start_ end_ tx s = Revert EndNotInFuture
     ∧ spec_error EndNotInFuture = Some InvalidTimeRange)
  ∧ (eid ∉ electionExists s → start_ < end_ → block_timestamp tx < end_ →
     ∃ s', createElection eid ttl descr start_ end_ tx s = Ok s'
           ∧ getElection eid s'
             = Ok (ttl, descr, start_, end_, false, false, 0, msg_sender tx)
           ∧ positionIds (electionAt s' eid) = []
           ∧ positions (electionAt s' eid) = ∅
           ∧ getElectionCount s' = getElectionCount s + 1
           ∧ (∀ eid', eid' ≠ eid → electionAt s' eid' = electionAt s eid')).
Proof.
  intros Hreach Hadmin.
  unfold createElection, onlyElectionAdmin. cbv zeta. rewrite Hadmin. simpl.
  split; [|split; [|split]].
  - intros Hex. by rewrite (bool_decide_eq_true_2 _ Hex).
  - intros Hex Hle. rewrite (bool_decide_eq_false_2 _ Hex). simpl.
    apply N.ltb_ge in Hle. by rewrite Hle.
  - intros Hex Hlt Hle. rewrite (bool_decide_eq_false_2 _ Hex). simpl.
    apply N.ltb_lt in Hlt. apply N.ltb_ge in Hle. by rewrite Hlt, Hle.
  - intros Hex Hlt Hfuture. rewrite (bool_decide_eq_false_2 _ Hex). simpl.
    apply N.ltb_lt in Hlt. apply N.ltb_lt in Hfuture.
    rewrite Hlt, Hfuture. simpl.
    eexists. split; [reflexivity|].
    unfold getElection, electionMustExist, getElectionCount.
    unfold_storage. rewrite lookup_insert_eq. simpl.
    rewrite bool_decide_eq_true_2 by set_solver. simpl.
    rewrite (unknown_election_slot s Hreach eid Hex). simpl.
    repeat split; try done.
    + rewrite length_app. simpl. lia.
    + intros eid' Hne. by rewrite lookup_insert_ne.
Qed.

Lemma createElection_guards_witness :
  ∃ s', createElection "E2" "Local" "Local election" 500 5000 (txOf 1 1100)
          afterFirstVote = Ok s'
        ∧ getElection "E2" s'
          = Ok ("Local", "Local election", 500, 5000, false, false, 0, 1)
        ∧ positionIds (electionAt s' "E2") = []
        ∧ positions (electionAt s' "E2") = ∅
        ∧ getElectionCount s' = getElectionCount afterFirstVote + 1
        ∧ (∀ eid', eid' ≠ "E2" →
                   electionAt s' eid' = electionAt afterFirstVote eid').
Proof.
  destruct (createElection_guards "E2" "Local" "Local election" 500 5000
              (txOf 1 1100) afterFirstVote reachable_afterFirstVote
              ltac:(vm_compute; reflexivity)) as (_ & _ & _ & Hnew).
  apply Hnew.
  - intros Hin.
    apply (bool_decide_eq_true_2 ("E2" ∈ electionExists afterFirstVote)) in Hin.
    vm_compute in Hin. discriminate Hin.
  - vm_compute. reflexivity.
  - vm_compute. reflexivity.
Defined.

(** X7: in every reachable storage the list [electionIds] has no duplicate
    and holds exactly the ids of the existing elections, so
    [getElectionCount] is the number of existing elections. *)
Theorem election_ids_unique (s : State) :
  reachable s →
  NoDup (electionIds s)
  ∧ (∀ eid, eid ∈ electionIds s ↔ eid ∈ electionExists s)
  ∧ getElectionCount s = N.of_nat (size (electionExists s)).
Proof.
  unfold getElectionCount.
  intros Hreach. reachable_induction Hreach; split_roles; simpl in *;
    try exact IH.
  1-4: (split; [constructor|]; split; [set_solver | done]).
  destruct IH as (Hnd & Hiff & Hsize). split; [|split].
  - apply NoDup_app. split; [done|]. split; [|apply NoDup_singleton].
    intros y Hy Hy'. apply list_elem_of_singleton in Hy' as ->.
    apply Hiff in Hy. done.
  - intros eid'. rewrite elem_of_app, list_elem_of_singleton, Hiff. set_solver.
  - rewrite length_app, size_union by set_solver.
    rewrite size_singleton. simpl. lia.
Qed.

Lemma election_ids_unique_witness :
  NoDup (electionIds afterSameHash)
  ∧ (∀ eid, eid ∈ electionIds afterSameHash
            ↔ eid ∈ electionExists afterSameHash)
  ∧ getElectionCount afterSameHash
    = N.of_nat (size (electionExists afterSameHash)).
Proof. exact (election_ids_unique afterSameHash reachable_afterSameHash). Defined.

(** ** What never changes in an election *)

Lemma header_kept (c : Call) (tx : Tx) (s : State) (eid : string) :
  eid ∈ electionExists s →
  electionHeader (electionAt (transact c tx s) eid)
  = electionHeader (electionAt s eid).
Proof.
  intros Hex. unfold transact.
  destruct (exec c tx s) as [s'|] eqn:Hcall; [|done].
  destruct c; inv_call Hcall; split_roles; unfold electionHeader;
    unfold_storage; case_lookup; done.
Qed.

Lemma exists_kept (c : Call) (tx : Tx) (s : State) (eid : string) :
  eid ∈ electionExists s → eid ∈ electionExists (transact c tx s).
Proof. intros Hex. by apply transact_flags. Qed.

Lemma window_nonempty (s : State) :
  reachable s →
  ∀ eid, eid ∈ electionExists s →
    startTime (electionAt s eid) < endTime (electionAt s eid).
Proof.
  intros Hreach. reachable_induction Hreach; intros eid' Hex;
    split_roles; unfold_storage; case_lookup;
    try (by apply IH); try (by apply N.ltb_lt); try (apply IH; set_solver).
Qed.

(** X8: the title, description, start time, end time and creator of an
    existing election never change, whatever transactions follow, and its
    start time is before its end time. *)
Theorem election_header_immutable (s : State) (eid : string)
  (txs : list (Call * Tx)) :
  reachable s →
  eid ∈ electionExists s →
  startTime (electionAt s eid) < endTime (electionAt s eid)
  ∧ eid ∈ electionExists (transactAll txs s)
  ∧ electionHeader (electionAt (transactAll txs s) eid)
    = electionHeader (electionAt s eid).
Proof.
  intros Hreach Hex. split; [by apply window_nonempty|].
  clear Hreach. revert s Hex.
  induction txs as [|[c tx] txs IH]; intros s Hex; simpl; [done|].
  destruct (IH (transact c tx s) (exists_kept c tx s eid Hex)) as [Hex' Hh].
  split; [exact Hex'|]. rewrite Hh. by apply header_kept.
Qed.

Lemma election_header_immutable_witness :
  startTime (electionAt neverStarted "E1") < endTime (electionAt neverStarted "E1")
  ∧ "E1" ∈ electionExists (transactAll openE1 neverStarted)
  ∧ electionHeader (electionAt (transactAll openE1 neverStarted) "E1")
    = electionHeader (electionAt neverStarted "E1").
Proof.
  apply (election_header_immutable neverStarted "E1" openE1
           reachable_neverStarted).
  apply (bool_decide_eq_true_1 ("E1" ∈ electionExists neverStarted)).
  vm_compute. reflexivity.
Defined.

(** ** Starting and ending *)

(** X9: for an administrator and an existing election [startElection]
    checks, in this order, that the election is not active (else
    AlreadyActive), that the start time is reached (else TooEarly) and that
    the election has a position (else NoPositions); the end time is not
    looked at.  When it returns, the record of the election is the one
    before with [isActive] set, so only [isActive] of that election has
    changed: every other election and every other part of the storage is as
    before, and one [ElectionStarted] event is appended. *)
Theorem startElection_guards (eid : string) (tx : Tx) (s : State) :
  hasRole ELECTION_ADMIN_ROLE (msg_sender tx) s = true →
  eid ∈ electionExists s →
  (isActive (electionAt s eid) = true →
   startElection eid tx s = Revert ElectionAlreadyActive
   ∧ spec_error ElectionAlreadyActive = Some AlreadyActive)
  ∧ (isActive (electionAt s eid) = false →
     block_timestamp tx < startTime (electionAt s eid) →
     startElection eid tx s = Revert StartTimeNotReached
     ∧ spec_error StartTimeNotReached = Some TooEarly)
  ∧ (isActive (electionAt s eid) = false →
     startTime (electionAt s eid) ≤ block_timestamp tx →
     positionIds (electionAt s eid) = [] →
     startElection eid tx s = Revert NoPositionYet
     ∧ spec_error NoPositionYet = Some NoPositions)
  ∧ (isActive (electionAt s eid) = false →
     startTime (electionAt s eid) ≤ block_timestamp tx →
     positionIds (electionAt s eid) ≠ [] →
     ∃ s', startElection eid tx s = Ok s'
           ∧ isActive (electionAt s' eid) = true
           ∧ resultsPublished (electionAt s' eid)
             = resultsPublished (electionAt s eid)
           ∧ totalVotes (electionAt s' eid) = totalVotes (electionAt s eid)
           ∧ positions (electionAt s' eid) = positions (electionAt s eid)
           ∧ (∀ eid', eid' ≠ eid → electionAt s' eid' = electionAt s eid')
           ∧ electionAt s' eid = set_isActive true (electionAt s eid)
           ∧ positionIds (electionAt s' eid) = positionIds (electionAt s eid)
           ∧ electionHeader (electionAt s' eid)
             = electionHeader (electionAt s eid)
           ∧ events s' = ElectionStarted eid :: events s
           ∧ votes s' = votes s
           ∧ hasVoted s' = hasVoted s
           ∧ voteHashes s' = voteHashes s
           ∧ registeredVoters s' = registeredVoters s
           ∧ electionExists s' = electionExists s
           ∧ electionIds s' = electionIds s
           ∧ roles s' = roles s
           ∧ paused s' = paused s
           ∧ status s' = status s).
Proof.
  intros Hadmin Hex.
  unfold startElection, onlyElectionAdmin, electionMustExist. cbv zeta.
  rewrite Hadmin, (bool_decide_eq_true_2 _ Hex). simpl.
  split; [|split; [|split]].
  - intros ->. done.
  - intros -> Hlt. simpl. apply N.leb_gt in Hlt. by rewrite Hlt.
  - intros -> Hle ->. simpl. apply N.leb_le in Hle. by rewrite Hle.
  - intros Hact Hle Hpos. rewrite Hact. simpl.
    apply N.leb_le in Hle. rewrite Hle. simpl.
    destruct (positionIds (electionAt s eid)) as [|p ps] eqn:Hp; [done|].
    simpl. eexists. split; [reflexivity|].
    change (electionAt (emit ?ev ?st) ?e) with (electionAt st e).
    rewrite !electionAt_store. destruct (decide (eid = eid)); [|done]. simpl.
    repeat (split; [done|]).
    split; [|done].
    intros eid' Hne. rewrite electionAt_store.
    by destruct (decide (eid = eid')) as [<-|].
Qed.

Lemma startElection_guards_witness :
  ∃ s', startElection "E1" (txOf 1 5000) neverStarted = Ok s'
        ∧ isActive (electionAt s' "E1") = true
        ∧ resultsPublished (electionAt s' "E1")
          = resultsPublished (electionAt neverStarted "E1")
        ∧ totalVotes (electionAt s' "E1")
          = totalVotes (electionAt neverStarted "E1")
        ∧ positions (electionAt s' "E1")
          = positions (electionAt neverStarted "E1")
        ∧ (∀ eid', eid' ≠ "E1" →
                   electionAt s' eid' = electionAt neverStarted eid')
        ∧ electionAt s' "E1" = set_isActive true (electionAt neverStarted "E1")
        ∧ positionIds (electionAt s' "E1")
          = positionIds (electionAt neverStarted "E1")
        ∧ electionHeader (electionAt s' "E1")
          = electionHeader (electionAt neverStarted "E1")
        ∧ events s' = ElectionStarted "E1" :: events neverStarted
        ∧ votes s' = votes neverStarted
        ∧ hasVoted s' = hasVoted neverStarted
        ∧ voteHashes s' = voteHashes neverStarted
        ∧ registeredVoters s' = registeredVoters neverStarted
        ∧ electionExists s' = electionExists neverStarted
        ∧ electionIds s' = electionIds neverStarted
        ∧ roles s' = roles neverStarted
        ∧ paused s' = paused neverStarted
        ∧ status s' = status neverStarted.
Proof.
  assert ("E1" ∈ electionExists neverStarted) as Hex.
  { apply (bool_decide_eq_true_1 ("E1" ∈ electionExists neverStarted)).
    vm_compute. reflexivity. }
  destruct (startElection_guards "E1" (txOf 1 5000) neverStarted
              ltac:(vm_compute; reflexivity) Hex) as (_ & _ & _ & Hstart).
  apply Hstart.
  - vm_compute. reflexivity.
  - vm_compute. discriminate.
  - vm_compute. discriminate.
Defined.

(** X10: in every reachable storage an active election exists and has at
    least one position. *)
Theorem active_has_position (s : State) (eid : string) :
  reachable s →
  isActive (electionAt s eid) = true →
  eid ∈ electionExists s ∧ positionIds (electionAt s eid) ≠ [].
Proof.
  intros Hreach. revert eid.
  reachable_induction Hreach; intros eid' Hact;
    split_roles; unfold_storage; try done;
    try (by apply IH);
    revert Hact; case_lookup; intros Hact; try done;
    try (by apply IH);
    try (destruct (IH eid' Hact) as [Hex' Hpos]; split; [set_solver|done]).
  - destruct (IH eid' Hact) as [Hex' Hpos]. split; [done|].
    intros Happ. by apply app_eq_nil in Happ as [_ ?].
  - split; [done|]. intros Hnil. rewrite Hnil in *. done.
Qed.

Lemma active_has_position_witness :
  "E1" ∈ electionExists afterFirstVote
  ∧ positionIds (electionAt afterFirstVote "E1") ≠ [].
Proof.
  apply (active_has_position afterFirstVote "E1" reachable_afterFirstVote).
  vm_compute. reflexivity.
Defined.



(** ** When [castVote] returns, and what it writes *)

(** The guards held, and the counters had room, when [castVote]
    returned. *)
Lemma castVote_Ok_guards (eid pid cid : string) (h : N) (tx : Tx)
  (s s' : State) :
  castVote eid pid cid h tx s = Ok s' →
  Forall (λ g, guardHolds g eid pid cid h tx s = true) castVoteGuards
  ∧ countersBelowMax eid pid cid s.
Proof.
  intros Hok. inv_call Hok. unfold castVoteGuards, countersBelowMax.
  unfold electionAt in *. simpl in *. split; [|done].
  repeat constructor; simpl.
  - by apply bool_decide_eq_true_2.
  - apply negb_true_iff. by apply bool_decide_eq_false_2.
  - by apply negb_true_iff.
  - by apply bool_decide_eq_true_2.
  - repeat (apply andb_true_iff; split); done.
  - apply negb_true_iff. by apply bool_decide_eq_false_2.
  - done.
  - by apply negb_true_iff.
Qed.

(** X12: [castVote] returns exactly when all eight guards hold and none of
    the three counters it increments is at its maximum. *)
Theorem castVote_returns_iff (eid pid cid : string) (h : N) (tx : Tx)
  (s : State) :
  (∃ s', castVote eid pid cid h tx s = Ok s')
  ↔ Forall (λ g, guardHolds g eid pid cid h tx s = true) castVoteGuards
    ∧ countersBelowMax eid pid cid s.
Proof.
  split.
  - intros [s' Hok]. by apply (castVote_Ok_guards eid pid cid h tx s s').
  - intros [Hguards Hroom]. by apply castVote_succeeds.
Qed.

(** X13: a [castVote] that returns adds one to the total of its election, to
    the vote count and to the tally of its candidate and to the number of
    votes cast, and appends one [VoteCast] event.  It changes no other
    candidate's count, no other election, no flag of its election, and
    neither the registered voters, the roles nor the pause flag. *)
Theorem castVote_effect (eid pid cid : string) (h : N) (tx : Tx)
  (s s' : State) :
  castVote eid pid cid h tx s = Ok s' →
  totalVotes (electionAt s' eid) = totalVotes (electionAt s eid) + 1
  ∧ voteCount (candidateAt (positionAt (electionAt s' eid) pid) cid)
    = voteCount (candidateAt (positionAt (electionAt s eid) pid) cid) + 1
  ∧ tallyAt (positionAt (electionAt s' eid) pid) cid
    = tallyAt (positionAt (electionAt s eid) pid) cid + 1
  ∧ getTotalVotesCast s' = getTotalVotesCast s + 1
  ∧ events s'
    = VoteCast eid pid cid (msg_sender tx) h (block_timestamp tx) :: events s
  ∧ (∀ eid' pid' cid',
       (eid', pid', cid') ≠ (eid, pid, cid) →
       voteCount (candidateAt (positionAt (electionAt s' eid') pid') cid')
       = voteCount (candidateAt (positionAt (electionAt s eid') pid') cid'))
  ∧ (∀ eid', eid' ≠ eid → electionAt s' eid' = electionAt s eid')
  ∧ isActive (electionAt s' eid) = isActive (electionAt s eid)
  ∧ resultsPublished (electionAt s' eid) = resultsPublished (electionAt s eid)
  ∧ positionIds (electionAt s' eid) = positionIds (electionAt s eid)
  ∧ registeredVoters s' = registeredVoters s
  ∧ roles s' = roles s
  ∧ paused s' = paused s
  ∧ status s' = status s.
Proof.
  intros Hok. inv_call Hok. unfold getTotalVotesCast.
  unfold_storage.
  rewrite !lookup_insert_eq. simpl. rewrite !lookup_insert_eq. simpl.
  rewrite !lookup_insert_eq. simpl.
  repeat (split; [done|]).
  split; [rewrite length_app; simpl; lia|].
  split; [done|]. split.
  { intros eid' pid' cid' Hne. case_lookup; try done. }
  split.
  { intros eid' Hne. by rewrite lookup_insert_ne. }
  repeat (split; [done|]).
  by destruct (status s).
Qed.

Lemma castVote_effect_witness :
  totalVotes (electionAt afterFirstVote "E1")
  = totalVotes (electionAt votingOpen "E1") + 1
  ∧ voteCount (candidateAt (positionAt (electionAt afterFirstVote "E1") "P1")
                 "C1")
    = voteCount (candidateAt (positionAt (electionAt votingOpen "E1") "P1")
                   "C1") + 1.
Proof.
  destruct (castVote_effect "E1" "P1" "C1" 170 (txOf 10 1010) votingOpen
              afterFirstVote ltac:(vm_compute; reflexivity))
    as (Htotal & Hcount & _).
  split; [exact Htotal | exact Hcount].
Defined.

(** X14: [castVote] reads the [registeredVoters] mapping and never the role
    table: replacing the roles changes neither whether it returns nor what
    it writes, so revoking [VOTER_ROLE] through AccessControl does not stop
    a registered voter. *)
Theorem castVote_ignores_roles (r : gset (Role * N)) (eid pid cid : string)
  (h : N) (tx : Tx) (s : State) :
  castVote eid pid cid h tx (set_roles r s)
  = mapResult (set_roles r) (castVote eid pid cid h tx s).
Proof.
  unfold_calls. unfold increment, electionAt. cbv zeta. simpl.
  repeat match goal with
  | |- context [require ?b _] => destruct b; simpl
  | |- context [if ?b then _ else _] => destruct b; simpl
  end; reflexivity.
Qed.

(** ** The pause switch, both ways *)

(** X15: for a holder of [DEFAULT_ADMIN_ROLE], [pause] returns exactly when
    the system is not paused and [unpause] exactly when it is; pausing and
    then unpausing leaves the storage as it was but for the two events. *)
Theorem pause_unpause (tx : Tx) (s : State) :
  hasRole DEFAULT_ADMIN_ROLE (msg_sender tx) s = true →
  (paused s = false →
   unpause tx s = Revert PausableNotPaused
   ∧ ∃ s1, pause tx s = Ok s1
           ∧ paused s1 = true
           ∧ unpause tx s1
             = Ok (emit (Unpaused (msg_sender tx))
                     (emit (Paused (msg_sender tx)) s)))
  ∧ (paused s = true →
     pause tx s = Revert PausablePaused
     ∧ spec_error PausablePaused = Some SystemPaused
     ∧ ∃ s1, unpause tx s = Ok s1 ∧ paused s1 = false).
Proof.
  intros Hadmin.
  unfold pause, unpause, _pause, _unpause, onlyRole, whenPaused, whenNotPaused.
  rewrite Hadmin. simpl. split.
  - intros Hp. rewrite Hp. simpl. split; [done|].
    eexists. split; [reflexivity|]. split; [done|].
    unfold hasRole in *. simpl. rewrite Hadmin. simpl.
    destruct s; simpl in *; subst; reflexivity.
  - intros Hp. rewrite Hp. simpl. split; [done|]. split; [done|].
    eexists. split; [reflexivity|]. done.
Qed.

Lemma pause_unpause_witness :
  unpause (txOf 1 1100) afterFirstVote = Revert PausableNotPaused
  ∧ ∃ s1, pause (txOf 1 1100) afterFirstVote = Ok s1
          ∧ paused s1 = true
          ∧ unpause (txOf 1 1100) s1
            = Ok (emit (Unpaused 1) (emit (Paused 1) afterFirstVote)).
Proof.
  destruct (pause_unpause (txOf 1 1100) afterFirstVote
              ltac:(vm_compute; reflexivity)) as [Hrun _].
  apply Hrun. vm_compute. reflexivity.
Defined.

(** ** Candidates *)

(** A candidate is active exactly when [registerCandidate] has returned for
    it.  *)
Lemma active_iff_registered (s : State) :
  reachable s →
  ∀ eid pid cid,
    candidateIsActive (candidateAt (positionAt (electionAt s eid) pid) cid)
    = registeredInLog eid pid cid (events s).
Proof.
  intros Hreach. reachable_induction Hreach; intros eid' pid' cid';
    split_roles; simpl; rewrite <- ?IH; try done;
    unfold_storage; case_lookup; case_events; try done;
    try (exfalso; intuition congruence).
Qed.




(** ** The list of vote hashes *)

(** In every reachable storage [voteHashes] is the list of the hashes in
    the [VoteCast] events, oldest first; a hash is in it exactly when a
    record is stored under it, and the zero hash is never in it. *)
Lemma voteHashes_stored (s : State) :
  reachable s →
  voteHashes s = reverse (castHashes (events s))
  ∧ (∀ h, h ∈ voteHashes s ↔ is_Some (votes s !! h))
  ∧ 0 ∉ voteHashes s.
Proof.
  intros Hreach.
  reachable_induction Hreach; split_roles; simpl in *; try exact IH.
  1-4: (split; [done|]; split;
        [ intros h; rewrite lookup_empty; split;
          [ intros Hin; by apply elem_of_nil in Hin | by intros [? ?] ]
        | by intros Hin%elem_of_nil ]).
  destruct IH as (Hlog & Hdom & Hzero). split; [|split].
  - by rewrite reverse_cons, Hlog.
  - intros h. rewrite elem_of_app, list_elem_of_singleton, Hdom.
    destruct (decide (hash = h)) as [->|Hne].
    + rewrite lookup_insert_eq. split; [eauto | by right].
    + rewrite lookup_insert_ne by done. split; [|by left].
      intros [?|?]; [done | congruence].
  - intros Hin. apply elem_of_app in Hin as [Hin|Hin]; [done|].
    apply list_elem_of_singleton in Hin.
    match goal with
    | Hz : (_ =? 0) = false |- _ => apply N.eqb_neq in Hz; done
    end.
Qed.

(** ** The two indexes of who has voted *)

(** X18: the contract keeps who has voted twice, in the global [hasVoted]
    mapping and in [Position.hasVoted]; in every reachable storage the two
    agree. *)
Theorem voted_indexes_agree (s : State) (who : N) (eid pid : string) :
  reachable s →
  who ∈ positionHasVoted (positionAt (electionAt s eid) pid)
  ↔ (who, eid, pid) ∈ hasVoted s.
Proof.
  intros Hreach. revert who eid pid.
  reachable_induction Hreach; intros who' eid' pid';
    split_roles; simpl; rewrite <- ?IH; try done;
    unfold_storage; case_lookup; try done.
  all: specialize (IH who' eid' pid');
    rewrite ?elem_of_union, ?elem_of_singleton, IH; naive_solver.
Qed.

Lemma voted_indexes_agree_witness :
  10 ∈ positionHasVoted (positionAt (electionAt afterSameHash "E1") "P1")
  ↔ (10, "E1", "P1") ∈ hasVoted afterSameHash.
Proof.
  exact (voted_indexes_agree afterSameHash 10 "E1" "P1"
           reachable_afterSameHash).
Defined.

(** ** What a stored vote record refers to *)

Lemma active_kept (c : Call) (tx : Tx) (s : State) (eid pid cid : string) :
  candidateIsActive (candidateAt (positionAt (electionAt s eid) pid) cid)
  = true →
  candidateIsActive
    (candidateAt (positionAt (electionAt (transact c tx s) eid) pid) cid)
  = true.
Proof.
  intros Hact. unfold transact.
  destruct (exec c tx s) as [s'|] eqn:Hcall; [|done].
  destruct c; inv_call Hcall; split_roles; unfold_storage; case_lookup; done.
Qed.

(** A record found after a transaction was there before, or is the record
    of this transaction, a [castVote] that returned. *)
Lemma votes_transact_inv (c : Call) (tx : Tx) (s : State) (h : N) (v : Vote) :
  votes (transact c tx s) !! h = Some v →
  votes s !! h = Some v
  ∨ ∃ eid pid cid,
      castVote eid pid cid h tx s = Ok (transact c tx s)
      ∧ c = CastVote eid pid cid h
      ∧ v = voteOfCast eid pid cid (msg_sender tx) h (block_timestamp tx).
Proof.
  unfold transact. destruct (exec c tx s) as [s'|] eqn:Hcall; [|by left].
  destruct c; try (inv_call Hcall; split_roles; by left).
  intros Hv. simpl in Hcall. pose proof Hcall as Hcall'.
  inv_call Hcall'. simpl in Hv.
  destruct (decide (hash = h)) as [->|Hne].
  - rewrite lookup_insert_eq in Hv. injection Hv as <-.
    right. by exists eid, pid, cid.
  - rewrite lookup_insert_ne in Hv by done. by left.
Qed.

(** X19: in every reachable storage a record stored under hash [h] carries
    [h] itself (not zero) and the verified flag, its election exists, its
    candidate is active, its voter is marked as having voted for its
    position, and its timestamp lies inside the window of its election. *)
Theorem vote_record_integrity (s : State) (h : N) (v : Vote) :
  reachable s →
  votes s !! h = Some v →
  voteHash v = h ∧ h ≠ 0 ∧ isVerified v = true
  ∧ voteElectionId v ∈ electionExists s
  ∧ candidateIsActive
      (candidateAt
         (positionAt (electionAt s (voteElectionId v)) (votePositionId v))
         (voteCandidateId v)) = true
  ∧ hasVoterVoted (voter v) (voteElectionId v) (votePositionId v) s = true
  ∧ startTime (electionAt s (voteElectionId v)) ≤ timestamp v
  ∧ timestamp v ≤ endTime (electionAt s (voteElectionId v)).
Proof.
  intros Hreach. revert h v. unfold hasVoterVoted.
  induction Hreach as [tx | c tx s Hs IH]; intros h v Hv.
  { unfold constructor in Hv. split_roles; simpl in Hv; done. }
  assert (∀ eid, eid ∈ electionExists s →
            startTime (electionAt (transact c tx s) eid)
            = startTime (electionAt s eid)
            ∧ endTime (electionAt (transact c tx s) eid)
              = endTime (electionAt s eid)) as Hwindow.
  { intros eid Hex. pose proof (header_kept c tx s eid Hex) as Hh.
    unfold electionHeader in Hh. by injection Hh as _ _ -> -> _. }
  apply votes_transact_inv in Hv
    as [Hold | (eid & pid & cid & Hcall & -> & ->)].
  - destruct (IH h v Hold)
      as (Hh & Hnz & Hver & Hex & Hact & Hmark & Hlo & Hhi).
    destruct (Hwindow _ Hex) as [-> ->].
    repeat (split; [done|]).
    split; [by apply exists_kept|].
    split; [by apply active_kept|].
    split; [|done].
    apply bool_decide_eq_true_2. apply bool_decide_eq_true_1 in Hmark.
    by apply (hasVoted_grows c tx s).
  - pose proof Hcall as Hguards.
    apply castVote_Ok_guards in Hcall as [Hall _].
    unfold castVoteGuards in Hall.
    repeat (apply Forall_cons in Hall as [? Hall]). simpl in *.
    repeat match goal with
    | H : _ && _ = true |- _ => apply andb_true_iff in H; destruct H
    | H : bool_decide _ = true |- _ => apply bool_decide_eq_true_1 in H
    | H : negb _ = true |- _ => apply negb_true_iff in H
    | H : (_ <=? _) = true |- _ => apply N.leb_le in H
    | H : (_ =? _) = false |- _ => apply N.eqb_neq in H
    end.
    destruct (Hwindow eid) as [-> ->]; [done|].
    split; [done|]. split; [done|]. split; [done|].
    split; [by apply exists_kept|].
    split; [by apply active_kept|].
    split; [|done].
    apply bool_decide_eq_true_2.
    by apply castVote_marks in Hguards as [_ ?].
Qed.

Lemma vote_record_integrity_witness :
  voteHash (voteOfCast "E1" "P1" "C2" 11 170 1020) = 170 ∧ 170 ≠ 0
  ∧ isVerified (voteOfCast "E1" "P1" "C2" 11 170 1020) = true
  ∧ voteElectionId (voteOfCast "E1" "P1" "C2" 11 170 1020)
    ∈ electionExists afterSameHash
  ∧ candidateIsActive
      (candidateAt
         (positionAt
            (electionAt afterSameHash
               (voteElectionId (voteOfCast "E1" "P1" "C2" 11 170 1020)))
            (votePositionId (voteOfCast "E1" "P1" "C2" 11 170 1020)))
         (voteCandidateId (voteOfCast "E1" "P1" "C2" 11 170 1020))) = true
  ∧ hasVoterVoted (voter (voteOfCast "E1" "P1" "C2" 11 170 1020))
      (voteElectionId (voteOfCast "E1" "P1" "C2" 11 170 1020))
      (votePositionId (voteOfCast "E1" "P1" "C2" 11 170 1020)) afterSameHash
    = true
  ∧ startTime
      (electionAt afterSameHash
         (voteElectionId (voteOfCast "E1" "P1" "C2" 11 170 1020)))
    ≤ timestamp (voteOfCast "E1" "P1" "C2" 11 170 1020)
  ∧ timestamp (voteOfCast "E1" "P1" "C2" 11 170 1020)
    ≤ endTime
        (electionAt afterSameHash
           (voteElectionId (voteOfCast "E1" "P1" "C2" 11 170 1020))).
Proof.
  apply (vote_record_integrity afterSameHash 170
           (voteOfCast "E1" "P1" "C2" 11 170 1020) reachable_afterSameHash).
  vm_compute. reflexivity.
Defined.

(** ** What configuring writes *)

(** X20: an [addPosition] that returns stores the title, description,
    [maxVotesPerVoter] and [availableSeats] it was given, appends the id to
    [positionIds], and keeps the candidates already stored under that
    position id, the other positions and the flags and total of the
    election. *)
Theorem addPosition_effect (eid pid ttl descr : string) (maxVotes seats : N)
  (tx : Tx) (s s' : State) :
  addPosition eid pid ttl descr maxVotes seats tx s = Ok s' →
  positionTitle (positionAt (electionAt s' eid) pid) = ttl
  ∧ positionDescription (positionAt (electionAt s' eid) pid) = descr
  ∧ maxVotesPerVoter (positionAt (electionAt s' eid) pid) = maxVotes
  ∧ availableSeats (positionAt (electionAt s' eid) pid) = seats
  ∧ 1 ≤ maxVotes ∧ 1 ≤ seats
  ∧ positionIds (electionAt s' eid) = positionIds (electionAt s eid) ++ [pid]
  ∧ candidates (positionAt (electionAt s' eid) pid)
    = candidates (positionAt (electionAt s eid) pid)
  ∧ candidateIds (positionAt (electionAt s' eid) pid)
    = candidateIds (positionAt (electionAt s eid) pid)
  ∧ (∀ pid', pid' ≠ pid →
             positionAt (electionAt s' eid) pid'
             = positionAt (electionAt s eid) pid')
  ∧ (∀ eid', eid' ≠ eid → electionAt s' eid' = electionAt s eid')
  ∧ isActive (electionAt s' eid) = false
  ∧ totalVotes (electionAt s' eid) = totalVotes (electionAt s eid).
Proof.
  intros Hok. inv_call Hok.
  repeat match goal with
  | H : (0 <? _) = true |- _ => apply N.ltb_lt in H
  end.
  unfold_storage. rewrite !lookup_insert_eq. simpl.
  rewrite !lookup_insert_eq. simpl.
  repeat (split; [first [done | lia]|]).
  split; [|split; [|done]].
  - intros pid' Hne. by rewrite lookup_insert_ne.
  - intros eid' Hne. by rewrite lookup_insert_ne.
Qed.

Lemma addPosition_effect_witness :
  positionIds (electionAt (transact (AddPosition "E1" "P2" "Deputy" "d" 2 3)
                             (txOf 1 950) neverStarted) "E1")
  = positionIds (electionAt neverStarted "E1") ++ ["P2"]
  ∧ maxVotesPerVoter
      (positionAt
         (electionAt (transact (AddPosition "E1" "P2" "Deputy" "d" 2 3)
                        (txOf 1 950) neverStarted) "E1") "P2") = 2.
Proof.
  destruct (addPosition_effect "E1" "P2" "Deputy" "d" 2 3 (txOf 1 950)
              neverStarted
              (transact (AddPosition "E1" "P2" "Deputy" "d" 2 3) (txOf 1 950)
                 neverStarted)
              ltac:(vm_compute; reflexivity))
    as (_ & _ & Hmax & _ & _ & _ & Hids & _).
  split; [exact Hids | exact Hmax].
Defined.

(** X21: a [registerCandidate] that returns stores the candidate with the
    data it was given, a vote count of zero and the active flag, and
    appends the id to the candidate ids of the position.  It does not look
    whether the position was added: [positionIds] is unchanged, so a
    candidate can be registered, and then voted for, under a position id
    the election does not list.  No other candidate and no other election
    is changed. *)
Theorem registerCandidate_effect
  (eid pid cid nm pty mfs : string) (addr : N) (tx : Tx) (s s' : State) :
  registerCandidate eid pid cid nm pty mfs addr tx s = Ok s' →
  candidateAt (positionAt (electionAt s' eid) pid) cid
  = {| name := nm; party := pty; manifesto := mfs; candidateAddress := addr;
       voteCount := 0; candidateIsActive := true |}
  ∧ addr ≠ 0
  ∧ getCandidateVoteCount eid pid cid s' = Ok 0
  ∧ candidateIds (positionAt (electionAt s' eid) pid)
    = candidateIds (positionAt (electionAt s eid) pid) ++ [cid]
  ∧ positionIds (electionAt s' eid) = positionIds (electionAt s eid)
  ∧ (∀ pid' cid', (pid', cid') ≠ (pid, cid) →
       candidateAt (positionAt (electionAt s' eid) pid') cid'
       = candidateAt (positionAt (electionAt s eid) pid') cid')
  ∧ (∀ eid', eid' ≠ eid → electionAt s' eid' = electionAt s eid')
  ∧ isActive (electionAt s' eid) = false
  ∧ totalVotes (electionAt s' eid) = totalVotes (electionAt s eid).
Proof.
  intros Hok. inv_call Hok.
  match goal with
  | H : (_ =? 0) = false |- _ => apply N.eqb_neq in H
  end.
  match goal with
  | H : _ ∈ electionExists _ |- _ =>
      apply (bool_decide_eq_true_2 _) in H; rename H into Hex
  end.
  unfold getCandidateVoteCount, electionMustExist.
  unfold_storage. rewrite !lookup_insert_eq. simpl.
  rewrite !lookup_insert_eq. simpl. rewrite !lookup_insert_eq. simpl.
  rewrite Hex. simpl.
  repeat (split; [done|]).
  split; [|split; [|done]].
  - intros pid' cid' Hne. case_lookup; done.
  - intros eid' Hne. by rewrite lookup_insert_ne.
Qed.

Lemma registerCandidate_effect_witness :
  positionIds
    (electionAt
       (transact (RegisterCandidate "E1" "P7" "C7" "Gil" "Teal" "m7" 27)
          (txOf 1 950) neverStarted) "E1")
  = positionIds (electionAt neverStarted "E1")
  ∧ getCandidateVoteCount "E1" "P7" "C7"
      (transact (RegisterCandidate "E1" "P7" "C7" "Gil" "Teal" "m7" 27)
         (txOf 1 950) neverStarted) = Ok 0.
Proof.
  destruct (registerCandidate_effect "E1" "P7" "C7" "Gil" "Teal" "m7" 27
              (txOf 1 950) neverStarted
              (transact (RegisterCandidate "E1" "P7" "C7" "Gil" "Teal" "m7" 27)
                 (txOf 1 950) neverStarted)
              ltac:(vm_compute; reflexivity))
    as (_ & _ & Hcount & _ & Hids & _).
  split; [exact Hids | exact Hcount].
Defined.

(** * The log and the calls that returned *)

(** ** What one transaction adds to the log *)

Lemma returns_Ok (c : Call) (tx : Tx) (s s' : State) :
  exec c tx s = Ok s' → returns c tx s = true.
Proof. unfold returns. by intros ->. Qed.

Lemma returns_Revert (c : Call) (tx : Tx) (s : State) (e : Error) :
  exec c tx s = Revert e → returns c tx s = false.
Proof. unfold returns. by intros ->. Qed.

(** Cases of one transaction: it reverted and the storage is the same, or
    it returned and the guards and writes are at hand. *)
Ltac transact_cases c tx s :=
  let Hc := fresh "Hc" in
  let s' := fresh "s'" in
  let e := fresh "e" in
  unfold transact; destruct (exec c tx s) as [s'|e] eqn:Hc;
  [ rewrite (returns_Ok c tx s s' Hc); destruct c; inv_call Hc
  | rewrite (returns_Revert c tx s e Hc), ?andb_false_r ].

Lemma step_castsOfElection (eid : string) (c : Call) (tx : Tx) (s : State) :
  castsOfElection eid (events (transact c tx s))
  = castsOfElection eid (events s)
    + (if isCastIn eid c && returns c tx s then 1 else 0).
Proof.
  transact_cases c tx s; split_roles; simpl; rewrite ?andb_true_r;
    case_events; simpl; lia.
Qed.

Lemma step_castsOfCandidate (eid pid cid : string) (c : Call) (tx : Tx)
  (s : State) :
  castsOfCandidate eid pid cid (events (transact c tx s))
  = castsOfCandidate eid pid cid (events s)
    + (if isCastFor eid pid cid c && returns c tx s then 1 else 0).
Proof.
  transact_cases c tx s; split_roles; simpl; rewrite ?andb_true_r;
    case_events; simpl; lia.
Qed.

Lemma step_registrationsInLog (eid pid cid : string) (c : Call) (tx : Tx)
  (s : State) :
  registrationsInLog eid pid cid (events (transact c tx s))
  = registrationsInLog eid pid cid (events s)
    + (if isRegistrationOf eid pid cid c && returns c tx s then 1 else 0).
Proof.
  transact_cases c tx s; split_roles; simpl; rewrite ?andb_true_r;
    case_events; simpl; lia.
Qed.

Lemma step_castHashes (c : Call) (tx : Tx) (s : State) :
  castHashes (events (transact c tx s))
  = match c with
    | CastVote _ _ _ hash => if returns c tx s then [hash] else []
    | _ => []
    end ++ castHashes (events s).
Proof.
  transact_cases c tx s; split_roles; simpl; try done.
  by destruct c.
Qed.

(** ** What a sequence of transactions adds to the log *)

Lemma castsOfElection_returned (eid : string) (txs : list (Call * Tx))
  (s : State) :
  castsOfElection eid (events (transactAll txs s))
  = castsOfElection eid (events s) + returnedCalls (isCastIn eid) txs s.
Proof.
  revert s. induction txs as [|[c tx] txs IH]; intros s; simpl; [lia|].
  change (foldl _ ?st txs) with (transactAll txs st).
  rewrite IH, step_castsOfElection. lia.
Qed.

Lemma castsOfCandidate_returned (eid pid cid : string)
  (txs : list (Call * Tx)) (s : State) :
  castsOfCandidate eid pid cid (events (transactAll txs s))
  = castsOfCandidate eid pid cid (events s)
    + returnedCalls (isCastFor eid pid cid) txs s.
Proof.
  revert s. induction txs as [|[c tx] txs IH]; intros s; simpl; [lia|].
  change (foldl _ ?st txs) with (transactAll txs st).
  rewrite IH, step_castsOfCandidate. lia.
Qed.

Lemma registrationsInLog_returned (eid pid cid : string)
  (txs : list (Call * Tx)) (s : State) :
  registrationsInLog eid pid cid (events (transactAll txs s))
  = registrationsInLog eid pid cid (events s)
    + returnedCalls (isRegistrationOf eid pid cid) txs s.
Proof.
  revert s. induction txs as [|[c tx] txs IH]; intros s; simpl; [lia|].
  change (foldl _ ?st txs) with (transactAll txs st).
  rewrite IH, step_registrationsInLog. lia.
Qed.

Lemma castHashes_returned (txs : list (Call * Tx)) (s : State) :
  castHashes (events (transactAll txs s))
  = reverse (returnedHashes txs s) ++ castHashes (events s).
Proof.
  revert s. induction txs as [|[c tx] txs IH]; intros s; simpl; [done|].
  change (foldl _ ?st txs) with (transactAll txs st).
  rewrite IH, step_castHashes, reverse_app, <- app_assoc. f_equal.
  destruct c; simpl; try done. by destruct (returns _ _ _).
Qed.

(** The log of a fresh deployment has no vote and no registration. *)
Lemma deployed_log (tx0 : Tx) :
  castHashes (events (constructor tx0)) = []
  ∧ (∀ eid, castsOfElection eid (events (constructor tx0)) = 0)
  ∧ (∀ eid pid cid, castsOfCandidate eid pid cid (events (constructor tx0)) = 0)
  ∧ (∀ eid pid cid,
       registrationsInLog eid pid cid (events (constructor tx0)) = 0).
Proof. unfold constructor. split_roles; done. Qed.

(** ** Candidates registered once *)

Lemma registeredInLog_registrations (eid pid cid : string) (log : list Event) :
  registrationsInLog eid pid cid log = 0 →
  registeredInLog eid pid cid log = false.
Proof.
  induction log as [|ev log IH]; [done|].
  destruct ev; simpl; try exact IH.
  case_bool_decide; simpl; [lia | exact IH].
Qed.

(** Nobody has voted for a candidate that was never registered. *)
Lemma unregistered_no_castsOfCandidate (s : State) :
  reachable s →
  ∀ eid pid cid,
    registeredInLog eid pid cid (events s) = false →
    castsOfCandidate eid pid cid (events s) = 0.
Proof.
  intros Hreach. assert (Hactive := active_iff_registered).
  reachable_induction Hreach; intros eid' pid' cid';
    split_roles; simpl; try (by apply IH); try done.
  - intros Hno. apply orb_false_iff in Hno as [_ Hno]. by apply IH.
  - intros Hno. rewrite (IH _ _ _ Hno).
    case_events; [|done].
    match goal with
    | Heq : _ = _ ∧ _ = _ ∧ _ = _ |- _ => destruct Heq as (-> & -> & ->)
    end.
    rewrite <- (Hactive _ Hs) in Hno. unfold electionAt in *. simpl in *.
    congruence.
Qed.

(** For a candidate registered at most once, the votes since the
    registration are all the votes. *)
Lemma registered_once_casts (s : State) :
  reachable s →
  ∀ eid pid cid,
    registrationsInLog eid pid cid (events s) ≤ 1 →
    castsSinceRegistration eid pid cid (events s)
    = castsOfCandidate eid pid cid (events s).
Proof.
  intros Hreach. assert (Hnone := unregistered_no_castsOfCandidate).
  reachable_induction Hreach; intros eid' pid' cid';
    split_roles; simpl; try (by apply IH); try done.
  - case_events; simpl; [|by apply IH].
    intros Hone. symmetry. apply (Hnone _ Hs).
    apply registeredInLog_registrations. lia.
  - intros Hone. by rewrite (IH _ _ _ Hone).
Qed.

(** ** Hashes cast once *)

Lemma latestCast_fresh (h : N) (log : list Event) :
  h ∉ castHashes log → latestCast h log = None.
Proof.
  induction log as [|ev log IH]; [done|].
  destruct ev; simpl; try exact IH.
  intros Hnot. apply not_elem_of_cons in Hnot as [Hne Hnot].
  rewrite bool_decide_eq_false_2 by done. by apply IH.
Qed.

(** Storing a record under an unused hash adds it to those a predicate
    selects exactly when the predicate selects it. *)
Lemma size_filter_insert_fresh (P : N * Vote → Prop)
  `{∀ kv, Decision (P kv)} (m : gmap N Vote) (h : N) (v : Vote) :
  m !! h = None →
  size (filter P (<[h := v]> m))
  = (size (filter P m) + (if decide (P (h, v)) then 1 else 0))%nat.
Proof.
  intros Hfresh. destruct (decide (P (h, v))) as [HP|HP].
  - rewrite map_filter_insert_True by done.
    rewrite map_size_insert, map_lookup_filter_None_2 by (by left).
    simpl. lia.
  - rewrite map_filter_insert_False by done.
    rewrite delete_id by done. lia.
Qed.

(** While no hash has been cast twice, the stored records of an election,
    and of a candidate, are as many as the successful [castVote] calls. *)
Lemma stored_casts_distinct (s : State) :
  reachable s →
  NoDup (castHashes (events s)) →
  ∀ eid pid cid,
    storedVotesOfElection eid s = castsOfElection eid (events s)
    ∧ storedVotesOfCandidate eid pid cid s
      = castsOfCandidate eid pid cid (events s).
Proof.
  unfold storedVotesOfElection, storedVotesOfCandidate.
  intros Hreach. assert (Hlatest := votes_latestCast).
  reachable_induction Hreach; intros Hnd eid' pid' cid';
    split_roles; simpl in *; try (by apply IH); try done.
  apply NoDup_cons in Hnd as [Hfresh Hnd].
  destruct (IH Hnd eid' pid' cid') as [IHe IHc].
  assert (votes s0 !! hash = None) as Hnone.
  { rewrite (Hlatest _ Hs). by apply latestCast_fresh. }
  split.
  - rewrite (size_filter_insert_fresh
               (λ kv : N * Vote, voteElectionId kv.2 = eid') _ _ _ Hnone).
    simpl. rewrite <- IHe. case_events; rewrite decide_bool_decide.
    + rewrite bool_decide_eq_true_2 by done. lia.
    + rewrite bool_decide_eq_false_2 by done. lia.
  - rewrite (size_filter_insert_fresh
               (λ kv : N * Vote,
                  voteElectionId kv.2 = eid' ∧ votePositionId kv.2 = pid'
                  ∧ voteCandidateId kv.2 = cid') _ _ _ Hnone).
    simpl. rewrite <- IHc. case_events; rewrite decide_bool_decide.
    + rewrite bool_decide_eq_true_2 by done. lia.
    + rewrite bool_decide_eq_false_2 by done. lia.
Qed.

(** ** Tallies against the calls that returned *)

(** C4 (amended): after deployment and any sequence of transactions,
    [Election.totalVotes] equals the number of [castVote] calls for the
    election that returned, and [Candidate.voteCount] equals the number of
    [castVote] calls for the candidate that returned, provided
    [registerCandidate] has returned for the candidate at most once.  The
    sequence being arbitrary, every operation preserves both equalities.
    These numbers are also the numbers of stored vote records of the
    election, and of the candidate, as long as no hash has been cast twice;
    whatever the hashes, the stored records of an election are at most
    [totalVotes]. *)
Theorem tallies_count_casts (tx0 : Tx) (txs : list (Call * Tx))
  (eid pid cid : string) :
  totalVotes (electionAt (transactAll txs (constructor tx0)) eid)
  = returnedCalls (isCastIn eid) txs (constructor tx0)
  ∧ (returnedCalls (isRegistrationOf eid pid cid) txs (constructor tx0) ≤ 1 →
     voteCount
       (candidateAt
          (positionAt (electionAt (transactAll txs (constructor tx0)) eid) pid)
          cid)
     = returnedCalls (isCastFor eid pid cid) txs (constructor tx0))
  ∧ storedVotesOfElection eid (transactAll txs (constructor tx0))
    ≤ totalVotes (electionAt (transactAll txs (constructor tx0)) eid)
  ∧ (NoDup (returnedHashes txs (constructor tx0)) →
     storedVotesOfElection eid (transactAll txs (constructor tx0))
     = totalVotes (electionAt (transactAll txs (constructor tx0)) eid)
     ∧ (returnedCalls (isRegistrationOf eid pid cid) txs (constructor tx0) ≤ 1 →
        storedVotesOfCandidate eid pid cid (transactAll txs (constructor tx0))
        = voteCount
            (candidateAt
               (positionAt (electionAt (transactAll txs (constructor tx0)) eid)
                  pid) cid))).
Proof.
  assert (reachable (transactAll txs (constructor tx0))) as Hreach
    by apply reachable_transactAll, reachable_deploy.
  destruct (deployed_log tx0) as (Hh0 & He0 & Hc0 & Hr0).
  pose proof (castsOfElection_returned eid txs (constructor tx0)) as He.
  pose proof (castsOfCandidate_returned eid pid cid txs (constructor tx0))
    as Hc.
  pose proof (registrationsInLog_returned eid pid cid txs (constructor tx0))
    as Hr.
  pose proof (castHashes_returned txs (constructor tx0)) as Hh.
  rewrite He0, N.add_0_l in He. rewrite Hc0, N.add_0_l in Hc.
  rewrite Hr0, N.add_0_l in Hr. rewrite Hh0, app_nil_r in Hh.
  rewrite <- He, <- Hc, <- Hr.
  rewrite (totalVotes_casts _ Hreach), (voteCount_casts _ Hreach).
  split; [done|]. split; [by apply registered_once_casts|].
  split; [by apply stored_le_casts_election|].
  intros Hnd.
  assert (NoDup (castHashes (events (transactAll txs (constructor tx0)))))
    as Hnd' by (by rewrite Hh, reverse_Permutation).
  destruct (stored_casts_distinct _ Hreach Hnd' eid pid cid) as [Hse Hsc].
  split; [exact Hse|].
  intros Hone. rewrite Hsc. symmetry. by apply registered_once_casts.
Qed.

Lemma tallies_count_casts_witness :
  storedVotesOfElection "E1" (transactAll untilFirstVote (constructor (txOf 1 900)))
  = totalVotes (electionAt (transactAll untilFirstVote (constructor (txOf 1 900)))
                  "E1")
  ∧ (returnedCalls (isRegistrationOf "E1" "P1" "C1") untilFirstVote
       (constructor (txOf 1 900)) ≤ 1 →
     storedVotesOfCandidate "E1" "P1" "C1"
       (transactAll untilFirstVote (constructor (txOf 1 900)))
     = voteCount
         (candidateAt
            (positionAt
               (electionAt (transactAll untilFirstVote (constructor (txOf 1 900)))
                  "E1") "P1") "C1")).
Proof.
  destruct (tallies_count_casts (txOf 1 900) untilFirstVote "E1" "P1" "C1")
    as (_ & _ & _ & Hdistinct).
  apply Hdistinct.
  assert (returnedHashes untilFirstVote (constructor (txOf 1 900)) = [170])
    as -> by (vm_compute; reflexivity).
  apply NoDup_singleton.
Defined.

(** ** The list of vote hashes *)

(** X17: after deployment and any sequence of transactions, [voteHashes]
    is the list of the hashes of the [castVote] calls that returned, in the
    order of the calls, so [getTotalVotesCast] is the number of these
    calls; a hash is in the list exactly when a record is stored under it,
    and the zero hash is never in it. *)
Theorem voteHashes_log (tx0 : Tx) (txs : list (Call * Tx)) :
  voteHashes (transactAll txs (constructor tx0))
  = returnedHashes txs (constructor tx0)
  ∧ getTotalVotesCast (transactAll txs (constructor tx0))
    = returnedCalls isCastVote txs (constructor tx0)
  ∧ (∀ h, h ∈ voteHashes (transactAll txs (constructor tx0))
          ↔ is_Some (votes (transactAll txs (constructor tx0)) !! h))
  ∧ 0 ∉ voteHashes (transactAll txs (constructor tx0)).
Proof.
  assert (reachable (transactAll txs (constructor tx0))) as Hreach
    by apply reachable_transactAll, reachable_deploy.
  destruct (voteHashes_stored _ Hreach) as (Hlog & Hdom & Hzero).
  destruct (deployed_log tx0) as (Hh0 & _).
  pose proof (castHashes_returned txs (constructor tx0)) as Hh.
  rewrite Hh0, app_nil_r in Hh.
  assert (voteHashes (transactAll txs (constructor tx0))
          = returnedHashes txs (constructor tx0)) as Hlist.
  { by rewrite Hlog, Hh, reverse_involutive. }
  split; [exact Hlist|]. split; [|split; [exact Hdom | exact Hzero]].
  unfold getTotalVotesCast. rewrite Hlist. clear.
  generalize (constructor tx0). induction txs as [|[c tx] txs IH]; intros s;
    simpl; [done|].
  rewrite length_app, Nat2N.inj_add, IH. f_equal.
  destruct c; simpl; try done. by destruct (returns _ _ _).
Qed.

Lemma voteHashes_log_witness :
  voteHashes (transactAll untilSameHash (constructor (txOf 1 900)))
  = [170; 170]
  ∧ getTotalVotesCast (transactAll untilSameHash (constructor (txOf 1 900)))
    = 2.
Proof.
  destruct (voteHashes_log (txOf 1 900) untilSameHash) as (Hlist & Hcount & _).
  rewrite Hlist, Hcount. split; vm_compute; reflexivity.
Defined.
